(** * Signal execution engine of scripts/trade_execution_logic.py

    Shallow embedding of the execution engine: the signal store
    (table [trade_signals]), the exchange gateway ([info] / [exchange]
    objects of the Hyperliquid SDK) and the functions
    [get_unexecuted_signals], [mark_signal_executed], [mark_signal_failed],
    [get_size_decimals], [set_leverage], [get_btc_position],
    [check_position_change], [place_limit_order_with_chase_openorders]
    and [execute_pending_signals].

    Python floats are modelled by exact rationals [Q]; Python's [round]
    (round half to even) is written out on [Q].  The gateway is an oracle:
    its answer to a call depends on the index of that call, so every
    behaviour of the exchange (including raising) is one [Gateway] value.
    Effects are threaded through a state and exception monad [M]. *)

From Stdlib Require Import ZArith QArith Qround Qabs String List Bool Lia
  Permutation Lqa Qpower Sorted.
Import ListNotations.

Local Open Scope string_scope.
Local Open Scope list_scope.
Local Open Scope Z_scope.

(** ** Python values used by the engine *)

(** Python's [needle in hay] on strings. *)
Fixpoint str_prefix (p s : string) : bool :=
  match p, s with
  | EmptyString, _ => true
  | String a p', String b s' => Ascii.eqb a b && str_prefix p' s'
  | _, _ => false
  end.

Fixpoint str_in (needle hay : string) : bool :=
  str_prefix needle hay ||
  match hay with
  | EmptyString => false
  | String _ h => str_in needle h
  end.

(** Python's [round(x)] on a float: nearest integer, ties to even. *)
Definition round_half_even (x : Q) : Z :=
  let f := Qfloor x in
  let r := (x - inject_Z f)%Q in
  if Qlt_le_dec r (1#2) then f
  else if Qeq_bool r (1#2) then (if Z.even f then f else f + 1)
  else f + 1.

(** Python's [round(x, nd)]: nearest multiple of [10^-nd], ties to even. *)
Definition py_round (x : Q) (nd : Z) : Q :=
  (inject_Z (round_half_even (x * (10 # 1) ^ nd)) / (10 # 1) ^ nd)%Q.

(** ** Gateway responses (the fields the engine reads) *)

Record AssetPosition := { ap_coin : string; ap_szi : Q }.

(** [info.user_state(addr)]: ["withdrawable"] (already parsed) and
    ["assetPositions"]. *)
Record UserState := { us_withdrawable : Q; us_positions : list AssetPosition }.

(** [info.all_mids().get("BTC")]: absent or empty (falsy), a string that
    [float] rejects, or a number. *)
Inductive MidEntry := MidAbsent | MidBad | MidVal (q : Q).

(** One entry of ["response"]["data"]["statuses"] of an order ack: the keys
    ["error"], ["filled"] and ["resting"] (with its ["oid"]). *)
Record FirstStatus :=
  { fs_error : bool; fs_filled : bool; fs_resting : option Z }.

Record OrderResp := { or_err : bool; or_statuses : list FirstStatus }.

(** [info.open_orders(addr)]: a list of orders (their ["oid"] field, if
    any) or a dict (error-wrapped or otherwise). *)
Inductive OpenOrdersResp :=
  | OOList (orders : list (option Z))
  | OODict (is_err : bool).

(** [info.user_fills(addr)]: a list of fills (their ["oid"]) or a dict. *)
Inductive FillsResp :=
  | FList (fills : list (option Z))
  | FDict (is_err : bool).

Inductive exn :=
  | GatewayExc (what : string)
  | ValueError (what : string)
  | ZeroDivisionError.

Inductive Exc (A : Type) := Ret (a : A) | Raise (e : exn).
Arguments Ret {A} a.
Arguments Raise {A} e.

(** The exchange, as seen from the engine: the answer (or exception) of
    each endpoint at every global call index. *)
Record Gateway := {
  g_meta : nat -> Exc (option Z);   (* szDecimals of BTC, if listed *)
  g_user_state : nat -> Exc UserState;
  g_all_mids : nat -> Exc MidEntry;
  g_update_leverage : nat -> Exc bool;   (* status == "err" *)
  g_order : nat -> Exc OrderResp;
  g_modify : nat -> Exc bool;            (* status == "err" *)
  g_open_orders : nat -> Exc OpenOrdersResp;
  g_user_fills : nat -> Exc FillsResp
}.

(** ** Signal store *)

Record Row := {
  row_id : Z;
  row_action : string;
  row_side : string;
  row_price : Q;
  row_leverage : option Z;   (* NULL for close signals *)
  row_executed : Z
}.

Record Signal := {
  sig_id : Z;
  sig_action : string;
  sig_side : string;
  sig_price : Q;
  sig_leverage : Z
}.

Definition sig_of_row (r : Row) : Signal :=
  {| sig_id := row_id r; sig_action := row_action r; sig_side := row_side r;
     sig_price := row_price r;
     sig_leverage := match row_leverage r with
                     | Some l => if l =? 0 then 1 else l
                     | None => 1
                     end |}.

Fixpoint insert_by_id (r : Row) (l : list Row) : list Row :=
  match l with
  | [] => [r]
  | x :: l' => if row_id r <=? row_id x then r :: l else x :: insert_by_id r l'
  end.

Definition sort_by_id (l : list Row) : list Row := fold_right insert_by_id [] l.

(** [SELECT ... WHERE executed = 0 ORDER BY id ASC] *)
Definition get_unexecuted_signals (db : list Row) : list Signal :=
  map sig_of_row (sort_by_id (filter (fun r => row_executed r =? 0) db)).

(** [UPDATE trade_signals SET executed = st WHERE id = ?] *)
Definition set_executed (id st : Z) (db : list Row) : list Row :=
  map (fun r => if row_id r =? id
                then {| row_id := row_id r; row_action := row_action r;
                        row_side := row_side r; row_price := row_price r;
                        row_leverage := row_leverage r; row_executed := st |}
                else r) db.

(** ** World and monad *)

Inductive event :=
  | EvMeta
  | EvUserState
  | EvAllMids
  | EvUpdateLeverage (leverage : Z)
  | EvOrder (is_buy : bool) (sz : Q) (limit_px : Z) (reduce_only : bool)
  | EvModify (oid : Z) (is_buy : bool) (sz : Q) (px : Z) (reduce_only : bool)
  | EvOpenOrders
  | EvUserFills
  | EvSleep (seconds : Q)
  | EvMark (id : Z) (status : Z).

(** Number of gateway calls so far, the store, and the log of effects
    (most recent first). *)
Record World := { w_calls : nat; w_db : list Row; w_log : list event }.

Definition M (A : Type) : Type := World -> Exc A * World.

Definition ret {A} (a : A) : M A := fun w => (Ret a, w).
Definition raise {A} (e : exn) : M A := fun w => (Raise e, w).
Definition bind {A B} (m : M A) (k : A -> M B) : M B :=
  fun w => match m w with
           | (Ret a, w') => k a w'
           | (Raise e, w') => (Raise e, w')
           end.

Notation "x <- m ;; k" := (bind m (fun x => k))
  (at level 61, m at next level, right associativity).
Notation "m ;;; k" := (bind m (fun _ => k))
  (at level 61, right associativity).

Definition emit (ev : event) : M unit :=
  fun w => (Ret tt, {| w_calls := w_calls w; w_db := w_db w;
                       w_log := ev :: w_log w |}).

(** A gateway call: logged, counted, answered by the oracle. *)
Definition gcall {A} (ev : event) (f : nat -> Exc A) : M A :=
  fun w => (f (w_calls w), {| w_calls := S (w_calls w); w_db := w_db w;
                              w_log := ev :: w_log w |}).

Definition time_sleep (s : Q) : M unit := emit (EvSleep s).

Definition read_db : M (list Row) := fun w => (Ret (w_db w), w).

Definition mark (id st : Z) : M unit :=
  fun w => (Ret tt, {| w_calls := w_calls w; w_db := set_executed id st (w_db w);
                       w_log := EvMark id st :: w_log w |}).

Definition mark_signal_executed (id : Z) : M unit := mark id 1.
Definition mark_signal_failed (id : Z) : M unit := mark id 2.

(** ** The engine *)

Record chase_result := {
  cr_status : string;
  cr_statuses : list string;
  cr_oid : option Z
}.

Definition chase_err (msg : string) : chase_result :=
  {| cr_status := "err"; cr_statuses := [msg]; cr_oid := None |}.
Definition chase_ok (st : string) : chase_result :=
  {| cr_status := "ok"; cr_statuses := [st]; cr_oid := None |}.
Definition chase_resting (oid : Z) : chase_result :=
  {| cr_status := "ok"; cr_statuses := ["resting"]; cr_oid := Some oid |}.

(** Outcome of one iteration of the polling loop. *)
Inductive step := Continue (current_price : Z) | Stop (r : chase_result).

Definition btc_szi (ps : list AssetPosition) : Q :=
  match find (fun p => String.eqb (ap_coin p) "BTC") ps with
  | Some p => ap_szi p
  | None => 0%Q
  end.

Definition check_position_change (old_pos new_pos : Q) (side : string)
    (trade_size : Q) : bool :=
  let tolerance := (trade_size * (1 # 10))%Q in
  let expected := if String.eqb side "long" then (old_pos + trade_size)%Q
                  else (old_pos - trade_size)%Q in
  negb (Qle_bool tolerance (Qabs (new_pos - expected))).

Definition oid_matches (oid : Z) (o : option Z) : bool :=
  match o with Some x => x =? oid | None => false end.

Section Engine.
Variable g : Gateway.

Definition get_size_decimals : M Z :=
  meta <- gcall EvMeta (g_meta g) ;;
  match meta with
  | Some d => ret d
  | None => raise (ValueError "BTC not found in meta data")
  end.

Definition set_leverage (leverage : Z) : M unit :=
  _ <- gcall (EvUpdateLeverage leverage) (g_update_leverage g) ;; ret tt.

Definition get_btc_position : M Q :=
  us <- gcall EvUserState (g_user_state g) ;; ret (btc_szi (us_positions us)).

(** One iteration of [for attempt in range(max_requotes + 1)]. *)
Definition poll_body (side : string) (size : Q) (reduce_only : bool)
    (max_requotes : Z) (sleep_seconds : Q) (oid : Z) (old_pos : Q)
    (attempt current_price : Z) : M step :=
  let is_buy := String.eqb side "long" in
  time_sleep sleep_seconds ;;;
  all_open <- gcall EvOpenOrders (g_open_orders g) ;;
  let open_orders_list := match all_open with
                          | OOList l => l
                          | OODict _ => []
                          end in
  if existsb (oid_matches oid) open_orders_list then
    if attempt <? max_requotes then
      mid <- gcall EvAllMids (g_all_mids g) ;;
      current_price' <- match mid with
                        | MidAbsent => ret current_price
                        | MidBad => raise (ValueError "float(btc_mid_str)")
                        | MidVal m => ret (round_half_even m)
                        end ;;
      modify_err <- gcall (EvModify oid is_buy size current_price' reduce_only)
                          (g_modify g) ;;
      if modify_err then ret (Stop (chase_err "error: modify_order failed"))
      else ret (Continue current_price')
    else ret (Stop (chase_resting oid))
  else
    fills_resp <- gcall EvUserFills (g_user_fills g) ;;
    let fills_list := match fills_resp with
                      | FList l => l
                      | FDict _ => []
                      end in
    if existsb (oid_matches oid) fills_list then ret (Stop (chase_ok "filled"))
    else
      new_pos <- get_btc_position ;;
      if check_position_change old_pos new_pos side size
      then ret (Stop (chase_ok "filled-fallback"))
      else ret (Stop (chase_err
                        "error: OID not open, not filled, no fallback fill")).

Fixpoint poll_loop (side : string) (size : Q) (reduce_only : bool)
    (max_requotes : Z) (sleep_seconds : Q) (oid : Z) (old_pos : Q)
    (n : nat) (attempt current_price : Z) : M step :=
  match n with
  | O => ret (Continue current_price)
  | S n' =>
      s <- poll_body side size reduce_only max_requotes sleep_seconds oid old_pos
                     attempt current_price ;;
      match s with
      | Continue p => poll_loop side size reduce_only max_requotes sleep_seconds
                                oid old_pos n' (attempt + 1) p
      | Stop r => ret (Stop r)
      end
  end.

Definition place_limit_order_with_chase_openorders (side : string) (size : Q)
    (initial_price : Z) (reduce_only : bool) (max_requotes : Z)
    (sleep_seconds : Q) : M chase_result :=
  let is_buy := String.eqb side "long" in
  old_pos <- get_btc_position ;;
  resp <- gcall (EvOrder is_buy size initial_price reduce_only) (g_order g) ;;
  if or_err resp then ret (chase_err "error: initial order placement failed")
  else
  match or_statuses resp with
  | [] => ret (chase_err "error: no statuses in response")
  | first_status :: _ =>
    if fs_error first_status
    then ret (chase_err "error: order placement returned error")
    else if fs_filled first_status then ret (chase_ok "filled-immediate")
    else
    match fs_resting first_status with
    | None => ret (chase_err "error: unknown immediate status")
    | Some oid =>
      time_sleep 2 ;;;
      s <- poll_loop side size reduce_only max_requotes sleep_seconds oid old_pos
                     (Z.to_nat (max_requotes + 1)) 0 initial_price ;;
      match s with
      | Stop r => ret r
      | Continue _ =>
        new_pos <- get_btc_position ;;
        if check_position_change old_pos new_pos side size
        then ret (chase_ok "filled-final-fallback")
        else ret (chase_err "error: chase loop ended, no fill detected")
      end
    end
  end.

(** The caller's reading of a chase result (lines 406-413 and 450-457). *)
Definition signal_status_of (resp : chase_result) : Z :=
  if String.eqb (cr_status resp) "err" then 2
  else if existsb (str_in "error") (cr_statuses resp) then 2
  else 1.

Definition BUFFER_FACTOR : Q := 98 # 100.

Definition open_trade_size (withdrawable : Q) (leverage : Z) (btc_mid : Q)
    (sz_decimals : Z) : Q :=
  py_round ((withdrawable * inject_Z leverage) / btc_mid * BUFFER_FACTOR)
           sz_decimals.

Definition handle_open (sz_decimals : Z) (sig : Signal) : M unit :=
  let signal_id := sig_id sig in
  let leverage := sig_leverage sig in
  set_leverage leverage ;;;
  user_state <- gcall EvUserState (g_user_state g) ;;
  let withdrawable := us_withdrawable user_state in
  mid <- gcall EvAllMids (g_all_mids g) ;;
  match mid with
  | MidAbsent => mark_signal_failed signal_id
  | MidBad => raise (ValueError "float(btc_mid_str)")
  | MidVal btc_mid =>
    if Qeq_bool btc_mid 0 then raise ZeroDivisionError else
    let trade_size := open_trade_size withdrawable leverage btc_mid sz_decimals in
    if Qle_bool trade_size 0 then mark_signal_failed signal_id
    else
      let rounded_price := round_half_even btc_mid in
      resp <- place_limit_order_with_chase_openorders (sig_side sig) trade_size
                rounded_price false 5 2 ;;
      mark signal_id (signal_status_of resp)
  end.

Definition opposite_side (side : string) : string :=
  if String.eqb side "long" then "short" else "long".

Definition handle_close (sz_decimals : Z) (sig : Signal) : M unit :=
  let signal_id := sig_id sig in
  user_state <- gcall EvUserState (g_user_state g) ;;
  let position_size := btc_szi (us_positions user_state) in
  if Qeq_bool position_size 0 then mark_signal_executed signal_id
  else
    let close_size := py_round (Qabs position_size) sz_decimals in
    mid <- gcall EvAllMids (g_all_mids g) ;;
    match mid with
    | MidAbsent => mark_signal_failed signal_id
    | MidBad => raise (ValueError "float(btc_mid_str)")
    | MidVal btc_mid =>
      let rounded_price := round_half_even btc_mid in
      resp <- place_limit_order_with_chase_openorders
                (opposite_side (sig_side sig)) close_size rounded_price true 5 2 ;;
      mark signal_id (signal_status_of resp)
    end.

Definition process_signal (sz_decimals : Z) (sig : Signal) : M unit :=
  if String.eqb (sig_action sig) "open" then handle_open sz_decimals sig
  else if String.eqb (sig_action sig) "close" then handle_close sz_decimals sig
  else ret tt.

Fixpoint process_signals (sz_decimals : Z) (signals : list Signal) : M unit :=
  match signals with
  | [] => ret tt
  | sig :: rest => process_signal sz_decimals sig ;;; process_signals sz_decimals rest
  end.

Definition execute_pending_signals : M unit :=
  sz_decimals <- get_size_decimals ;;
  db <- read_db ;;
  match get_unexecuted_signals db with
  | [] => ret tt
  | signals => process_signals sz_decimals signals
  end.

End Engine.

(** ** Observations on runs *)

(** Effects recorded since a point of the run, replayed on the store. *)
Definition replay_marks (l : list event) (db : list Row) : list Row :=
  fold_right (fun ev db => match ev with
                           | EvMark id st => set_executed id st db
                           | _ => db
                           end) db l.

Definition count_ev (f : event -> bool) (l : list event) : nat :=
  length (filter f l).

Definition is_mark (ev : event) : bool :=
  match ev with EvMark _ _ => true | _ => false end.

Definition is_poll (ev : event) : bool :=
  match ev with EvOpenOrders => true | _ => false end.

Definition is_order (ev : event) : bool :=
  match ev with EvOrder _ _ _ _ => true | _ => false end.

Definition is_mark_of (x : Z) (ev : event) : bool :=
  match ev with EvMark id _ => id =? x | _ => false end.

(** A mark that is not a transition of a signal of [ids] to 1 or 2. *)
Definition stray_mark (ids : list Z) (ev : event) : bool :=
  match ev with
  | EvMark id st => negb (existsb (Z.eqb id) ids && ((st =? 1) || (st =? 2)))
  | _ => false
  end.

Definition Q_syn_eqb (a b : Q) : bool :=
  (Qnum a =? Qnum b) && Pos.eqb (Qden a) (Qden b).

(** An order placement other than [(is_buy, sz, reduce_only)]. *)
Definition stray_order (is_buy : bool) (sz : Q) (reduce_only : bool)
    (ev : event) : bool :=
  match ev with
  | EvOrder b s _ ro => negb (Bool.eqb b is_buy && Q_syn_eqb s sz
                              && Bool.eqb ro reduce_only)
  | _ => false
  end.

(** Statuses of the rows with a given id. *)
Definition status_of (x : Z) (db : list Row) : list Z :=
  map row_executed (filter (fun r => row_id r =? x) db).

(** Every run of [m] only appends to the log, changes the store only by
    the marks it logs, and logs at most [k] events satisfying [f]. *)
Definition bounded {A} (f : event -> bool) (k : nat) (m : M A) : Prop :=
  forall w, exists new,
    w_log (snd (m w)) = new ++ w_log w /\
    w_db (snd (m w)) = replay_marks new (w_db w) /\
    (count_ev f new <= k)%nat.

(** Every value returned by [m] satisfies [P]. *)
Definition returns {A} (P : A -> Prop) (m : M A) : Prop :=
  forall w, match fst (m w) with Ret a => P a | Raise _ => True end.

(** The values the chase loop returns. *)
Definition chase_outcomes : list chase_result := [
  chase_err "error: initial order placement failed";
  chase_err "error: no statuses in response";
  chase_err "error: order placement returned error";
  chase_ok "filled-immediate";
  chase_err "error: unknown immediate status";
  chase_err "error: modify_order failed";
  chase_ok "filled";
  chase_ok "filled-fallback";
  chase_err "error: OID not open, not filled, no fallback fill";
  chase_ok "filled-final-fallback";
  chase_err "error: chase loop ended, no fill detected"].

Definition terminal_outcome (r : chase_result) : Prop :=
  In r chase_outcomes \/ exists oid, r = chase_resting oid.

Definition step_terminal (s : step) : Prop :=
  match s with Stop r => terminal_outcome r | Continue _ => True end.

(** ** Concrete exchanges and stores *)

Definition order_filled : OrderResp :=
  {| or_err := false;
     or_statuses := [{| fs_error := false; fs_filled := true;
                        fs_resting := None |}] |}.

Definition btc_at (szi : Q) : UserState :=
  {| us_withdrawable := 10; us_positions := [{| ap_coin := "BTC"; ap_szi := szi |}] |}.

(** An exchange that answers every call, with the given account state and
    open orders; orders fill on placement. *)
Definition calm_gateway (us : UserState) (open : list (option Z)) : Gateway :=
  {| g_meta := fun _ => Ret (Some 3);
     g_user_state := fun _ => Ret us;
     g_all_mids := fun _ => Ret (MidVal 5000);
     g_update_leverage := fun _ => Ret false;
     g_order := fun _ => Ret order_filled;
     g_modify := fun _ => Ret false;
     g_open_orders := fun _ => Ret (OOList open);
     g_user_fills := fun _ => Ret (FList []) |}.

(** The same exchange whose [user_state] endpoint raises. *)
Definition user_state_down : Gateway :=
  {| g_meta := fun _ => Ret (Some 3);
     g_user_state := fun _ => Raise (GatewayExc "user_state");
     g_all_mids := fun _ => Ret (MidVal 5000);
     g_update_leverage := fun _ => Ret false;
     g_order := fun _ => Ret order_filled;
     g_modify := fun _ => Ret false;
     g_open_orders := fun _ => Ret (OOList []);
     g_user_fills := fun _ => Ret (FList []) |}.

Definition open_row (id : Z) : Row :=
  {| row_id := id; row_action := "open"; row_side := "long";
     row_price := 50000; row_leverage := Some 5; row_executed := 0 |}.

Definition close_signal (id : Z) : Signal :=
  {| sig_id := id; sig_action := "close"; sig_side := "long";
     sig_price := 50000; sig_leverage := 1 |}.

Definition open_signal (id leverage : Z) : Signal :=
  {| sig_id := id; sig_action := "open"; sig_side := "long";
     sig_price := 50000; sig_leverage := leverage |}.

Definition world_of (db : list Row) : World :=
  {| w_calls := 0; w_db := db; w_log := [] |}.

(** ** Runs that settle signals *)

(** Every answer of an endpoint is a value satisfying [P]. *)
Definition answers {A} (P : A -> Prop) (f : nat -> Exc A) : Prop :=
  forall n, exists a, P a /\ f n = Ret a.

(** A mid the handlers can use: absent, or a number other than 0. *)
Definition mid_ok (m : MidEntry) : Prop :=
  match m with
  | MidAbsent => True
  | MidBad => False
  | MidVal q => ~ (q == 0)%Q
  end.

(** An exchange whose endpoints used by the signal handlers never raise
    and whose BTC mid, when present, is a non-zero number. *)
Definition reliable (g : Gateway) : Prop :=
  answers (fun _ => True) (g_user_state g) /\
  answers (fun _ => True) (g_update_leverage g) /\
  answers mid_ok (g_all_mids g) /\
  answers (fun _ => True) (g_order g) /\
  answers (fun _ => True) (g_modify g) /\
  answers (fun _ => True) (g_open_orders g) /\
  answers (fun _ => True) (g_user_fills g).

(** The actions [execute_pending_signals] handles. *)
Definition acts (s : Signal) : bool :=
  String.eqb (sig_action s) "open" || String.eqb (sig_action s) "close".

(** [m] returns a value satisfying [P] and leaves the store as it was. *)
Definition clean {A} (P : A -> Prop) (m : M A) : Prop :=
  forall w, exists a, P a /\ fst (m w) = Ret a /\ w_db (snd (m w)) = w_db w.

(** [m] returns, and its only change of the store is the mark of [id] to
    executed (1) or failed (2). *)
Definition settles {A} (id : Z) (m : M A) : Prop :=
  forall w, exists a st, (st = 1 \/ st = 2) /\ fst (m w) = Ret a /\
    w_db (snd (m w)) = set_executed id st (w_db w).

Definition step_world (w : World) (ev : event) : World :=
  {| w_calls := S (w_calls w); w_db := w_db w; w_log := ev :: w_log w |}.

(** ** Order and modify placements *)

(** An order placement other than [(is_buy, sz, limit_px, reduce_only)]. *)
Definition stray_order_px (is_buy : bool) (sz : Q) (px : Z) (reduce_only : bool)
    (ev : event) : bool :=
  match ev with
  | EvOrder b s p ro => negb (Bool.eqb b is_buy && Q_syn_eqb s sz && (p =? px)
                              && Bool.eqb ro reduce_only)
  | _ => false
  end.

(** The OID of the first status of an order acknowledgement, if resting. *)
Definition first_oid (resp : OrderResp) : option Z :=
  match or_statuses resp with
  | fs :: _ => fs_resting fs
  | [] => None
  end.

(** A modification other than one of order [oid] with [(is_buy, sz,
    reduce_only)]. *)
Definition stray_modify (oid : option Z) (is_buy : bool) (sz : Q)
    (reduce_only : bool) (ev : event) : bool :=
  match ev with
  | EvModify o b s _ ro =>
      negb (match oid with Some x => o =? x | None => false end &&
            Bool.eqb b is_buy && Q_syn_eqb s sz && Bool.eqb ro reduce_only)
  | _ => false
  end.

(** Whether an order acknowledgement starts the polling loop. *)
Definition ack_rests (resp : OrderResp) : bool :=
  negb (or_err resp) &&
  match or_statuses resp with
  | fs :: _ => negb (fs_error fs) && negb (fs_filled fs) &&
               match fs_resting fs with Some _ => true | None => false end
  | [] => false
  end.

(** The same exchange with another [update_leverage] endpoint. *)
Definition with_update_leverage (g : Gateway) (h : nat -> Exc bool) : Gateway :=
  {| g_meta := g_meta g; g_user_state := g_user_state g;
     g_all_mids := g_all_mids g; g_update_leverage := h; g_order := g_order g;
     g_modify := g_modify g; g_open_orders := g_open_orders g;
     g_user_fills := g_user_fills g |}.

(** ** More concrete exchanges and stores *)

Definition order_resting (oid : Z) : OrderResp :=
  {| or_err := false;
     or_statuses := [{| fs_error := false; fs_filled := false;
                        fs_resting := Some oid |}] |}.

(** [calm_gateway] with the given BTC mid entry. *)
Definition mid_gateway (us : UserState) (mid : MidEntry) : Gateway :=
  {| g_meta := fun _ => Ret (Some 3);
     g_user_state := fun _ => Ret us;
     g_all_mids := fun _ => Ret mid;
     g_update_leverage := fun _ => Ret false;
     g_order := fun _ => Ret order_filled;
     g_modify := fun _ => Ret false;
     g_open_orders := fun _ => Ret (OOList []);
     g_user_fills := fun _ => Ret (FList []) |}.

(** [calm_gateway] on which orders rest with the given OID. *)
Definition resting_gateway (oid : Z) (us : UserState) (open : list (option Z))
    : Gateway :=
  {| g_meta := fun _ => Ret (Some 3);
     g_user_state := fun _ => Ret us;
     g_all_mids := fun _ => Ret (MidVal 5000);
     g_update_leverage := fun _ => Ret false;
     g_order := fun _ => Ret (order_resting oid);
     g_modify := fun _ => Ret false;
     g_open_orders := fun _ => Ret (OOList open);
     g_user_fills := fun _ => Ret (FList []) |}.

(** [calm_gateway] whose meta data does not list BTC. *)
Definition no_btc_gateway : Gateway :=
  {| g_meta := fun _ => Ret None;
     g_user_state := fun _ => Ret (btc_at 0);
     g_all_mids := fun _ => Ret (MidVal 5000);
     g_update_leverage := fun _ => Ret false;
     g_order := fun _ => Ret order_filled;
     g_modify := fun _ => Ret false;
     g_open_orders := fun _ => Ret (OOList []);
     g_user_fills := fun _ => Ret (FList []) |}.

Definition row_of (id : Z) (action : string) (executed : Z) : Row :=
  {| row_id := id; row_action := action; row_side := "long";
     row_price := 50000; row_leverage := Some 2; row_executed := executed |}.

(** A user with nothing to withdraw and no position. *)
Definition broke : UserState := {| us_withdrawable := 0; us_positions := [] |}.

(** * Decision making of scripts/decision_making.py

    The signal producer: [calculate_ibs], [determine_leverage],
    [format_trade_signal], [has_active_trade], [get_latest_hourly_candle],
    [insert_trade_signal], [mark_open_trade_executed], the method
    [TradingLogic.process_candle] and one iteration of
    [decision_making_loop].  Configuration takes the defaults of the
    source ([LEVERAGE_BASE = 5], [LEVERAGE_EXPONENT = 7], [SYMBOL = "BTC"]). *)

Definition LEVERAGE_BASE : Q := 5.
Definition LEVERAGE_EXPONENT : Z := 7.
Definition SYMBOL : string := "BTC".

(** Python's [min(a, b)] and [max(a, b)]: the first argument unless the
    second is strictly smaller (resp. larger). *)
Definition py_min (a b : Q) : Q := if Qlt_le_dec b a then b else a.
Definition py_max (a b : Q) : Q := if Qlt_le_dec a b then b else a.

Definition calculate_ibs (close low high : Q) : Q :=
  if Qeq_bool high low then 1 # 2
  else
    let ibs := ((close - low) / (high - low))%Q in
    py_max 0 (py_min ibs 1).

Definition determine_leverage (ibs : Q) : Z :=
  let leverage := (LEVERAGE_BASE * (1 - ibs) ^ LEVERAGE_EXPONENT)%Q in
  let leverage := py_min leverage LEVERAGE_BASE in
  let leverage := py_max 1 leverage in
  round_half_even leverage.

(** The signal dict; the key ["leverage"] is present or not.  The only
    caller passes the integer [self.leverage]. *)
Record TradeSignal := {
  ts_action : string;
  ts_timestamp : string;
  ts_symbol : string;
  ts_side : string;
  ts_price : Q;
  ts_leverage : option Z
}.

Definition format_trade_signal (action timestamp symbol side : string)
    (price : Q) (leverage : option Z) : TradeSignal :=
  {| ts_action := action; ts_timestamp := timestamp; ts_symbol := symbol;
     ts_side := side; ts_price := price;
     ts_leverage := match leverage with
                    | Some l => if String.eqb action "open" then Some l else None
                    | None => None
                    end |}.

(** A row of [trade_signals] with all the columns the two scripts use. *)
Record SignalRow := {
  sr_id : Z;
  sr_timestamp : string;
  sr_action : string;
  sr_symbol : string;
  sr_side : string;
  sr_price : Q;
  sr_leverage : option Z;
  sr_executed : Z
}.

(** The table and its [AUTOINCREMENT] counter ([sqlite_sequence]). *)
Record SignalTable := { t_seq : Z; t_rows : list SignalRow }.

(** The columns [execute_pending_signals] reads. *)
Definition to_row (r : SignalRow) : Row :=
  {| row_id := sr_id r; row_action := sr_action r; row_side := sr_side r;
     row_price := sr_price r; row_leverage := sr_leverage r;
     row_executed := sr_executed r |}.

Definition max_id (rows : list SignalRow) : Z :=
  fold_right (fun r m => Z.max (sr_id r) m) 0 rows.

Definition SQLITE_MAX_ROWID : Z := 9223372036854775807.

(** [INSERT INTO trade_signals (...) VALUES (...)] with
    [signal.get('leverage', 1.0)]: the new id is one more than the largest
    id the table ever had; [None] is SQLite's [SQLITE_FULL] once that
    largest id is the maximal rowid. *)
Definition insert_trade_signal (t : SignalTable) (signal : TradeSignal)
    : option SignalTable :=
  let last := Z.max (t_seq t) (max_id (t_rows t)) in
  if last <? SQLITE_MAX_ROWID then
    let id := last + 1 in
    Some {| t_seq := id;
            t_rows := t_rows t ++
              [{| sr_id := id; sr_timestamp := ts_timestamp signal;
                  sr_action := ts_action signal; sr_symbol := ts_symbol signal;
                  sr_side := ts_side signal; sr_price := ts_price signal;
                  sr_leverage := Some (match ts_leverage signal with
                                       | Some l => l
                                       | None => 1
                                       end);
                  sr_executed := 0 |}] |}
  else None.

Definition pending_open (r : SignalRow) : bool :=
  String.eqb (sr_action r) "open" && (sr_executed r =? 0).

(** [SELECT COUNT( * ) ... WHERE action = 'open' AND executed = 0] [> 0]. *)
Definition has_active_trade (t : SignalTable) : bool :=
  0 <? Z.of_nat (length (filter pending_open (t_rows t))).

(** [UPDATE trade_signals SET executed = 1
     WHERE action = 'open' AND symbol = ? AND executed = 0]. *)
Definition mark_open_trade_executed (t : SignalTable) (symbol : string)
    : SignalTable :=
  {| t_seq := t_seq t;
     t_rows := map (fun r =>
       if pending_open r && String.eqb (sr_symbol r) symbol
       then {| sr_id := sr_id r; sr_timestamp := sr_timestamp r;
               sr_action := sr_action r; sr_symbol := sr_symbol r;
               sr_side := sr_side r; sr_price := sr_price r;
               sr_leverage := sr_leverage r; sr_executed := 1 |}
       else r) (t_rows t) |}.

(** A row of [hourly_candles]; [None] is a NULL column. *)
Record Candle := {
  c_id : Z;
  c_timestamp : option string;
  c_open : option Q;
  c_high : option Q;
  c_low : option Q;
  c_close : option Q;
  c_volume : option Q
}.

(** The first candle of the list with the least id. *)
Fixpoint first_by_id (l : list Candle) : option Candle :=
  match l with
  | [] => None
  | c :: l' =>
      match first_by_id l' with
      | Some c' => if c_id c' <? c_id c then Some c' else Some c
      | None => Some c
      end
  end.

(** [if last_processed_id:] (0 and [None] are falsy), then
    [... WHERE id > ? ORDER BY id ASC LIMIT 1] or
    [... ORDER BY id ASC LIMIT 1]. *)
Definition get_latest_hourly_candle (candles : list Candle)
    (last_processed_id : option Z) : option Candle :=
  match last_processed_id with
  | Some n => if n =? 0 then first_by_id candles
              else first_by_id (filter (fun c => n <? c_id c) candles)
  | None => first_by_id candles
  end.

(** A [datetime]: microseconds (UTC for aware values, wall clock for naive
    ones) and whether it carries a UTC offset; subtracting a naive from an
    aware value raises [TypeError]. *)
Record DateTime := { dt_micros : Z; dt_aware : bool }.

Definition dt_sub (a b : DateTime) : option Z :=
  if Bool.eqb (dt_aware a) (dt_aware b) then Some (dt_micros a - dt_micros b)
  else None.

Definition ONE_HOUR : Z := 3600 * 1000000.

Record TradingLogic := {
  trade_active : bool;
  entry_price : Q;
  tl_leverage : Z;
  entry_time : option DateTime;
  last_processed_id : option Z
}.

Definition initial_logic : TradingLogic :=
  {| trade_active := false; entry_price := 0; tl_leverage := 1;
     entry_time := None; last_processed_id := None |}.

Section DecisionMaking.
(** [datetime.fromisoformat] ([None]: [ValueError]) and one call of
    [execute_pending_signals] on the table (its outcome and the table
    after it). *)
Variable fromisoformat : string -> option DateTime.
Variable engine : SignalTable -> Exc unit * SignalTable.

(** [TradingLogic.process_candle]: every exception of the body is caught
    and logged, leaving the attributes and the table as they were at the
    point of the exception. *)
Definition process_candle (candle : Candle) (tl : TradingLogic)
    (t : SignalTable) : TradingLogic * SignalTable :=
  match c_timestamp candle with
  | None => (tl, t)
  | Some timestamp_str =>
  if String.eqb timestamp_str "" then (tl, t) else
  match fromisoformat timestamp_str with
  | None => (tl, t)
  | Some timestamp =>
  match c_open candle, c_high candle, c_low candle, c_close candle with
  | Some _, Some high_price, Some low_price, Some close_price =>
    if Qlt_le_dec high_price low_price then (tl, t) else
    let ibs := calculate_ibs close_price low_price high_price in
    if negb (trade_active tl) then
      if has_active_trade t then (tl, t) else
      if Qlt_le_dec ibs (1 # 5) then
        let tl1 := {| trade_active := trade_active tl;
                      entry_price := close_price;
                      tl_leverage := determine_leverage ibs;
                      entry_time := Some timestamp;
                      last_processed_id := last_processed_id tl |} in
        let trade_signal := format_trade_signal "open" timestamp_str SYMBOL
                              "long" close_price (Some (tl_leverage tl1)) in
        match insert_trade_signal t trade_signal with
        | None => (tl1, t)
        | Some t1 =>
          match engine t1 with
          | (Ret _, t2) =>
              ({| trade_active := true; entry_price := entry_price tl1;
                  tl_leverage := tl_leverage tl1; entry_time := entry_time tl1;
                  last_processed_id := last_processed_id tl1 |}, t2)
          | (Raise _, t2) => (tl1, t2)
          end
        end
      else (tl, t)
    else
      match entry_time tl with
      | None => (tl, t)
      | Some et =>
        match dt_sub timestamp et with
        | None => (tl, t)
        | Some time_elapsed =>
          if ONE_HOUR <=? time_elapsed then
            let trade_close_signal := format_trade_signal "close" timestamp_str
                                        SYMBOL "long" close_price None in
            match insert_trade_signal t trade_close_signal with
            | None => (tl, t)
            | Some t1 =>
              let t2 := mark_open_trade_executed t1 SYMBOL in
              match engine t2 with
              | (Ret _, t3) =>
                  ({| trade_active := false; entry_price := 0; tl_leverage := 1;
                      entry_time := None;
                      last_processed_id := last_processed_id tl |}, t3)
              | (Raise _, t3) => (tl, t3)
              end
            end
          else (tl, t)
        end
      end
  | _, _, _, _ => (tl, t)
  end
  end
  end.

(** One iteration of [decision_making_loop] on the candles present at that
    time (the [asyncio.sleep(10)] apart). *)
Definition loop_step (candles : list Candle) (tl : TradingLogic)
    (t : SignalTable) : TradingLogic * SignalTable :=
  match get_latest_hourly_candle candles (last_processed_id tl) with
  | Some candle =>
      let (tl', t') := process_candle candle tl t in
      ({| trade_active := trade_active tl'; entry_price := entry_price tl';
          tl_leverage := tl_leverage tl'; entry_time := entry_time tl';
          last_processed_id := Some (c_id candle) |}, t')
  | None => (tl, t)
  end.

(** Iterations on successive snapshots of [hourly_candles], with the ids of
    the candles handed to [process_candle], oldest first. *)
Fixpoint loop_run (snaps : list (list Candle)) (tl : TradingLogic)
    (t : SignalTable) : list Z * (TradingLogic * SignalTable) :=
  match snaps with
  | [] => ([], (tl, t))
  | candles :: rest =>
      let seen := match get_latest_hourly_candle candles (last_processed_id tl) with
                  | Some c => [c_id c]
                  | None => []
                  end in
      let (tl', t') := loop_step candles tl t in
      let (ids, st) := loop_run rest tl' t' in
      (seen ++ ids, st)
  end.

End DecisionMaking.

(** [execute_pending_signals] on the table: the engine runs on the columns
    it reads, and its marks ([UPDATE ... WHERE id = ?]) are applied to the
    full rows. *)
Definition sr_set_executed (id st : Z) (rows : list SignalRow) : list SignalRow :=
  map (fun r => if sr_id r =? id
                then {| sr_id := sr_id r; sr_timestamp := sr_timestamp r;
                        sr_action := sr_action r; sr_symbol := sr_symbol r;
                        sr_side := sr_side r; sr_price := sr_price r;
                        sr_leverage := sr_leverage r; sr_executed := st |}
                else r) rows.

Definition sr_replay_marks (l : list event) (rows : list SignalRow)
    : list SignalRow :=
  fold_right (fun ev rows => match ev with
                             | EvMark id st => sr_set_executed id st rows
                             | _ => rows
                             end) rows l.

Definition table_engine (g : Gateway) (t : SignalTable)
    : Exc unit * SignalTable :=
  let (r, w) := execute_pending_signals g
                  {| w_calls := 0; w_db := map to_row (t_rows t); w_log := [] |} in
  (r, {| t_seq := t_seq t; t_rows := sr_replay_marks (w_log w) (t_rows t) |}).

(** A table holding one pending open signal, and a candle of the hour. *)
Definition stuck_table : SignalTable :=
  {| t_seq := 1;
     t_rows := [{| sr_id := 1; sr_timestamp := "2024-01-01T00:00:00";
                   sr_action := "open"; sr_symbol := SYMBOL; sr_side := "long";
                   sr_price := 42000; sr_leverage := Some 3; sr_executed := 0 |}] |}.

Definition hour_candle (id : Z) (close : Q) : Candle :=
  {| c_id := id; c_timestamp := Some "2024-01-01T01:00:00";
     c_open := Some 100%Q; c_high := Some 110%Q; c_low := Some 100%Q;
     c_close := Some close; c_volume := Some 1%Q |}.

(** The order of the engine's queue. *)
Definition id_le (a b : Row) : Prop := row_id a <= row_id b.

(** ** The monad: bind laws for the observations *)

Lemma count_ev_app f l1 l2 :
  count_ev f (l1 ++ l2) = (count_ev f l1 + count_ev f l2)%nat.
Proof. unfold count_ev. rewrite filter_app, length_app. reflexivity. Qed.

Lemma replay_marks_app l1 l2 db :
  replay_marks (l1 ++ l2) db = replay_marks l1 (replay_marks l2 db).
Proof. unfold replay_marks. apply fold_right_app. Qed.

Lemma bounded_weaken {A} f k k' (m : M A) :
  bounded f k m -> (k <= k')%nat -> bounded f k' m.
Proof.
  intros H Hk w. destruct (H w) as (new & H1 & H2 & H3).
  exists new. repeat split; auto. lia.
Qed.

Lemma bounded_ret {A} f (a : A) : bounded f 0 (ret a).
Proof. intros w. exists []. repeat split; simpl; auto. Qed.

Lemma bounded_raise {A} f e : bounded f 0 (@raise A e).
Proof. intros w. exists []. repeat split; simpl; auto. Qed.

Lemma bounded_read_db f : bounded f 0 read_db.
Proof. intros w. exists []. repeat split; simpl; auto. Qed.

Lemma bounded_gcall {A} f ev (h : nat -> Exc A) :
  is_mark ev = false -> bounded f (if f ev then 1 else 0) (gcall ev h).
Proof.
  intros Hm w. exists [ev]. simpl. repeat split.
  - destruct ev; simpl in Hm; try discriminate; reflexivity.
  - unfold count_ev. simpl. destruct (f ev); simpl; lia.
Qed.

Lemma bounded_emit f ev :
  is_mark ev = false -> bounded f (if f ev then 1 else 0) (emit ev).
Proof.
  intros Hm w. exists [ev]. simpl. repeat split.
  - destruct ev; simpl in Hm; try discriminate; reflexivity.
  - unfold count_ev. simpl. destruct (f ev); simpl; lia.
Qed.

Lemma bounded_mark f id st :
  bounded f (if f (EvMark id st) then 1 else 0) (mark id st).
Proof.
  intros w. exists [EvMark id st]. simpl. repeat split.
  unfold count_ev. simpl. destruct (f (EvMark id st)); simpl; lia.
Qed.

Lemma bounded_bind {A B} f c K (m : M A) (k : A -> M B) :
  bounded f c m -> (forall a, bounded f (K - c) (k a)) -> (c <= K)%nat ->
  bounded f K (bind m k).
Proof.
  intros Hm Hk Hc w. unfold bind.
  destruct (Hm w) as (new1 & L1 & D1 & C1).
  destruct (m w) as [[a|e] w1] eqn:E; simpl in *.
  - destruct (Hk a w1) as (new2 & L2 & D2 & C2).
    exists (new2 ++ new1). rewrite L2, L1, D2, D1, count_ev_app,
      replay_marks_app, app_assoc. repeat split; auto. lia.
  - exists new1. repeat split; auto. lia.
Qed.

Lemma returns_bind {A B} (P : B -> Prop) (m : M A) (k : A -> M B) :
  (forall a, returns P (k a)) -> returns P (bind m k).
Proof.
  intros Hk w. unfold bind. destruct (m w) as [[a|e] w1]; simpl; auto.
  apply Hk.
Qed.

Lemma returns_bind_P {A B} (P : B -> Prop) (Q : A -> Prop) (m : M A)
    (k : A -> M B) :
  returns Q m -> (forall a, Q a -> returns P (k a)) -> returns P (bind m k).
Proof.
  intros Hm Hk w. unfold bind. specialize (Hm w).
  destruct (m w) as [[a|e] w1]; simpl in *; auto. apply Hk; auto.
Qed.

Lemma returns_ret {A} (P : A -> Prop) a : P a -> returns P (ret a).
Proof. intros H w. exact H. Qed.

Lemma returns_raise {A} (P : A -> Prop) e : returns P (raise e).
Proof. intros w. exact I. Qed.

Create HintDb bnd.
#[local] Hint Resolve bounded_ret bounded_raise bounded_read_db bounded_mark : bnd.
#[local] Hint Extern 1 (bounded _ _ (gcall _ _)) =>
  apply bounded_gcall; reflexivity : bnd.
#[local] Hint Extern 1 (bounded _ _ (emit _)) =>
  apply bounded_emit; reflexivity : bnd.

Ltac bnd_arith :=
  cbv beta iota delta [is_poll is_mark is_order is_mark_of stray_mark
                       stray_order signal_status_of];
  repeat match goal with H : ?b = true |- context [?b] => rewrite H end;
  repeat match goal with
         | |- context [if ?b then _ else _] => destruct b eqn:?
         | H : context [if ?b then _ else _] |- _ => destruct b eqn:?
         end; simpl in *; try discriminate; lia.

Ltac bnd :=
  repeat (cbv beta zeta;
    match goal with
    | |- bounded _ _ (bind (match ?x with _ => _ end) _) => destruct x
    | |- bounded _ _ (bind _ _) =>
        eapply bounded_bind; [solve [eauto with bnd] | intros ? | bnd_arith]
    | |- bounded _ _ (match ?x with _ => _ end) => destruct x
    | |- bounded _ _ _ =>
        eapply bounded_weaken; [solve [eauto with bnd] | bnd_arith]
    end).

Ltac rets :=
  repeat (cbv beta zeta;
    match goal with
    | |- returns _ (bind (match ?x with _ => _ end) _) => destruct x
    | |- returns _ (bind _ _) => apply returns_bind; intros ?
    | |- returns _ (match ?x with _ => _ end) => destruct x eqn:?
    | |- returns _ (ret _) => apply returns_ret
    | |- returns _ (raise _) => apply returns_raise
    end).

Lemma bounded_mono {A} (f f' : event -> bool) k (m : M A) :
  (forall ev, f ev = true -> f' ev = true) -> bounded f' k m -> bounded f k m.
Proof.
  intros Hf H w. destruct (H w) as (new & H1 & H2 & H3).
  exists new. repeat split; auto.
  assert (count_ev f new <= count_ev f' new)%nat; [|lia].
  unfold count_ev. clear -Hf. induction new as [|ev l IH]; simpl; auto.
  destruct (f ev) eqn:E.
  - rewrite (Hf ev E). simpl. lia.
  - destruct (f' ev); simpl; lia.
Qed.

Lemma bounded_time_sleep f s :
  bounded f (if f (EvSleep s) then 1 else 0) (time_sleep s).
Proof. apply bounded_emit. reflexivity. Qed.

Lemma bounded_get_btc_position g f :
  bounded f (if f EvUserState then 1 else 0) (get_btc_position g).
Proof. unfold get_btc_position. bnd. Qed.

Lemma bounded_set_leverage g f l :
  bounded f (if f (EvUpdateLeverage l) then 1 else 0) (set_leverage g l).
Proof. unfold set_leverage. bnd. Qed.

Lemma bounded_get_size_decimals g f :
  bounded f (if f EvMeta then 1 else 0) (get_size_decimals g).
Proof. unfold get_size_decimals. bnd. Qed.

#[local] Hint Resolve bounded_time_sleep bounded_get_btc_position
  bounded_set_leverage bounded_get_size_decimals : bnd.

Section Chase.
Variables (g : Gateway) (side : string) (size : Q) (reduce_only : bool)
          (max_requotes : Z) (sleep_seconds : Q).

Lemma poll_body_polls oid old_pos attempt p :
  bounded is_poll 1 (poll_body g side size reduce_only max_requotes
                       sleep_seconds oid old_pos attempt p).
Proof. unfold poll_body. bnd. Qed.

Lemma poll_body_no_mark oid old_pos attempt p :
  bounded is_mark 0 (poll_body g side size reduce_only max_requotes
                       sleep_seconds oid old_pos attempt p).
Proof. unfold poll_body. bnd. Qed.

Lemma poll_body_no_order oid old_pos attempt p :
  bounded is_order 0 (poll_body g side size reduce_only max_requotes
                        sleep_seconds oid old_pos attempt p).
Proof. unfold poll_body. bnd. Qed.

End Chase.

Section ChaseBounds.
Variables (g : Gateway) (side : string) (size : Q) (reduce_only : bool)
          (max_requotes : Z) (sleep_seconds : Q).
Variables (f : event -> bool) (c : nat).
Hypothesis body_cost : forall oid old_pos attempt p,
  bounded f c (poll_body g side size reduce_only max_requotes sleep_seconds
                 oid old_pos attempt p).

Lemma poll_loop_bounded oid old_pos n : forall attempt p,
  bounded f (n * c) (poll_loop g side size reduce_only max_requotes
                       sleep_seconds oid old_pos n attempt p).
Proof.
  induction n as [|n IH]; intros attempt p; simpl.
  - apply bounded_ret.
  - eapply bounded_bind; [apply body_cost | intros [q|r] | lia].
    + eapply bounded_weaken; [apply IH | lia].
    + eapply bounded_weaken; [apply bounded_ret | lia].
Qed.

End ChaseBounds.

Section ChaseFacts.
Variables (g : Gateway) (side : string) (size : Q) (reduce_only : bool)
          (max_requotes : Z) (sleep_seconds : Q).

Lemma chase_polls p :
  bounded is_poll (Z.to_nat (max_requotes + 1))
    (place_limit_order_with_chase_openorders g side size p reduce_only
       max_requotes sleep_seconds).
Proof.
  unfold place_limit_order_with_chase_openorders. cbv beta zeta.
  eapply bounded_bind; [apply bounded_get_btc_position | intros old_pos |
                        simpl; lia].
  eapply bounded_bind; [apply bounded_gcall; reflexivity | intros resp |
                        simpl; lia].
  destruct (or_err resp); [bnd|].
  destruct (or_statuses resp) as [|fs rest]; [bnd|].
  destruct (fs_error fs); [bnd|]. destruct (fs_filled fs); [bnd|].
  destruct (fs_resting fs) as [oid|]; [|bnd].
  eapply bounded_bind; [apply bounded_time_sleep | intros _ | simpl; lia].
  eapply bounded_bind;
    [apply (poll_loop_bounded g side size reduce_only max_requotes
              sleep_seconds is_poll 1); apply poll_body_polls
    | intros [q|r] | simpl; lia].
  - bnd.
  - bnd.
Qed.

Lemma chase_no_mark p :
  bounded is_mark 0
    (place_limit_order_with_chase_openorders g side size p reduce_only
       max_requotes sleep_seconds).
Proof.
  unfold place_limit_order_with_chase_openorders. cbv beta zeta.
  eapply bounded_bind; [apply bounded_get_btc_position | intros old_pos |
                        simpl; lia].
  eapply bounded_bind; [apply bounded_gcall; reflexivity | intros resp |
                        simpl; lia].
  destruct (or_err resp); [bnd|].
  destruct (or_statuses resp) as [|fs rest]; [bnd|].
  destruct (fs_error fs); [bnd|]. destruct (fs_filled fs); [bnd|].
  destruct (fs_resting fs) as [oid|]; [|bnd].
  eapply bounded_bind; [apply bounded_time_sleep | intros _ | simpl; lia].
  eapply bounded_bind;
    [apply (poll_loop_bounded g side size reduce_only max_requotes
              sleep_seconds is_mark 0); apply poll_body_no_mark
    | intros [q|r] | simpl; lia].
  - bnd.
  - bnd.
Qed.

(** The only order placement of a chase is its first one. *)
Lemma chase_orders p :
  bounded (stray_order (String.eqb side "long") size reduce_only) 0
    (place_limit_order_with_chase_openorders g side size p reduce_only
       max_requotes sleep_seconds).
Proof.
  unfold place_limit_order_with_chase_openorders. cbv beta zeta.
  eapply bounded_bind; [apply bounded_get_btc_position | intros old_pos |
                        simpl; lia].
  eapply bounded_bind; [apply bounded_gcall; reflexivity | intros resp | ].
  2:{ cbv beta iota delta [stray_order Q_syn_eqb].
      rewrite Bool.eqb_reflx, Z.eqb_refl, Pos.eqb_refl, Bool.eqb_reflx.
      simpl. lia. }
  assert (Hp : forall oid old_pos n attempt q,
    bounded (stray_order (String.eqb side "long") size reduce_only) 0
      (poll_loop g side size reduce_only max_requotes sleep_seconds oid
         old_pos n attempt q)).
  { intros. eapply bounded_mono;
      [|eapply bounded_weaken; [apply (poll_loop_bounded g side size
          reduce_only max_requotes sleep_seconds is_order 0);
          apply poll_body_no_order | lia]].
    intros [] H; simpl in *; congruence. }
  destruct (or_err resp); [bnd|].
  destruct (or_statuses resp) as [|fs rest]; [bnd|].
  destruct (fs_error fs); [bnd|]. destruct (fs_filled fs); [bnd|].
  destruct (fs_resting fs) as [oid|]; [|bnd].
  eapply bounded_bind; [apply bounded_time_sleep | intros _ | simpl; lia].
  eapply bounded_bind; [apply Hp | intros [q|r] | simpl; lia].
  - bnd.
  - bnd.
Qed.

End ChaseFacts.

Ltac outcome :=
  unfold step_terminal, terminal_outcome, chase_outcomes;
  first [ right; eexists; reflexivity
        | left; simpl; repeat (first [left; reflexivity | right]) ].

Section ChaseReturns.
Variables (g : Gateway) (side : string) (size : Q) (reduce_only : bool)
          (max_requotes : Z) (sleep_seconds : Q).

Lemma poll_body_returns oid old_pos attempt p :
  returns step_terminal (poll_body g side size reduce_only max_requotes
                           sleep_seconds oid old_pos attempt p).
Proof. unfold poll_body, time_sleep, get_btc_position. rets; try exact I; outcome. Qed.

(** An iteration continues the loop only while re-quotes remain. *)
Lemma poll_body_continue oid old_pos attempt p :
  returns (fun s => match s with Continue _ => attempt < max_requotes
                                | Stop _ => True end)
    (poll_body g side size reduce_only max_requotes sleep_seconds oid
       old_pos attempt p).
Proof.
  unfold poll_body, time_sleep, get_btc_position. rets; auto.
  all: apply Z.ltb_lt; assumption.
Qed.

Lemma poll_loop_returns oid old_pos n : forall attempt p,
  returns step_terminal (poll_loop g side size reduce_only max_requotes
                           sleep_seconds oid old_pos n attempt p).
Proof.
  induction n as [|n IH]; intros attempt p; simpl.
  - apply returns_ret. exact I.
  - eapply returns_bind_P; [apply poll_body_returns | intros [q|r] Hs].
    + apply IH.
    + apply returns_ret. exact Hs.
Qed.

Lemma chase_returns p :
  returns terminal_outcome
    (place_limit_order_with_chase_openorders g side size p reduce_only
       max_requotes sleep_seconds).
Proof.
  unfold place_limit_order_with_chase_openorders. cbv beta zeta.
  apply returns_bind; intros old_pos. apply returns_bind; intros resp.
  destruct (or_err resp); [apply returns_ret; outcome|].
  destruct (or_statuses resp) as [|fs rest]; [apply returns_ret; outcome|].
  destruct (fs_error fs); [apply returns_ret; outcome|].
  destruct (fs_filled fs); [apply returns_ret; outcome|].
  destruct (fs_resting fs) as [oid|]; [|apply returns_ret; outcome].
  apply returns_bind; intros _.
  eapply returns_bind_P; [apply poll_loop_returns | intros [q|r] Hs].
  - unfold get_btc_position. rets; outcome.
  - apply returns_ret. exact Hs.
Qed.

End ChaseReturns.

Lemma poll_loop_no_fallthrough g side size reduce_only max_requotes
    sleep_seconds oid old_pos n : forall attempt p,
  (1 <= n)%nat -> max_requotes < attempt + Z.of_nat n ->
  returns (fun s => match s with Continue _ => False | Stop _ => True end)
    (poll_loop g side size reduce_only max_requotes sleep_seconds oid
       old_pos n attempt p).
Proof.
  induction n as [|n IH]; intros attempt p Hn Hlt; [lia|]. simpl.
  eapply returns_bind_P; [apply poll_body_continue | intros [q|r] Hs].
  - destruct n as [|n]; [simpl in Hlt; lia|].
    apply IH; lia.
  - apply returns_ret. exact I.
Qed.

(** ** Store facts *)

Lemma insert_by_id_perm r l : Permutation (insert_by_id r l) (r :: l).
Proof.
  induction l as [|x l IH]; simpl; [auto|].
  destruct (row_id r <=? row_id x); [auto|].
  eapply perm_trans; [apply perm_skip, IH | apply perm_swap].
Qed.

Lemma sort_by_id_perm l : Permutation (sort_by_id l) l.
Proof.
  induction l as [|x l IH]; simpl; [auto|].
  eapply perm_trans; [apply insert_by_id_perm | apply perm_skip, IH].
Qed.

Lemma fetched_ids_perm db :
  Permutation (map sig_id (get_unexecuted_signals db))
              (map row_id (filter (fun r => row_executed r =? 0) db)).
Proof.
  unfold get_unexecuted_signals. rewrite map_map.
  apply Permutation_map, sort_by_id_perm.
Qed.

Lemma nodup_map_filter {A} (f : A -> Z) p l :
  NoDup (map f l) -> NoDup (map f (filter p l)).
Proof.
  induction l as [|a l IH]; simpl; intros H; [constructor|].
  inversion H as [|? ? Hn Hd]; subst.
  destruct (p a); simpl; auto.
  constructor; auto. intros Hin. apply Hn.
  apply in_map_iff in Hin as (b & <- & Hb). apply filter_In in Hb as [Hb _].
  apply in_map; auto.
Qed.

Lemma fetched_nodup db :
  NoDup (map row_id db) -> NoDup (map sig_id (get_unexecuted_signals db)).
Proof.
  intros H. eapply Permutation_NoDup; [symmetry; apply fetched_ids_perm|].
  apply nodup_map_filter, H.
Qed.

Lemma fetched_pending db x :
  In x (map sig_id (get_unexecuted_signals db)) ->
  exists r, In r db /\ row_id r = x /\ row_executed r = 0.
Proof.
  intros H. eapply Permutation_in in H; [|apply fetched_ids_perm].
  apply in_map_iff in H as (r & <- & Hr). apply filter_In in Hr as [Hr He].
  exists r. repeat split; auto. apply Z.eqb_eq; auto.
Qed.

Lemma filter_notin {A} (f : A -> Z) x l :
  ~ In x (map f l) -> filter (fun a => f a =? x) l = [].
Proof.
  induction l as [|a l IH]; simpl; intros H; auto.
  destruct (Z.eqb_spec (f a) x); [exfalso; auto|]. apply IH. auto.
Qed.

Lemma filter_nodup_le1 {A} (f : A -> Z) x l :
  NoDup (map f l) -> (length (filter (fun a => Z.eqb (f a) x) l) <= 1)%nat.
Proof.
  induction l as [|a l IH]; simpl; intros H; [lia|].
  inversion H as [|? ? Hn Hd]; subst.
  destruct (Z.eqb_spec (f a) x) as [<-|]; simpl.
  - rewrite filter_notin; simpl; auto.
  - auto.
Qed.

Lemma status_of_nodup db r :
  NoDup (map row_id db) -> In r db -> status_of (row_id r) db = [row_executed r].
Proof.
  unfold status_of. induction db as [|a l IH]; simpl; intros H Hin; [easy|].
  inversion H as [|? ? Hn Hd]; subst.
  destruct Hin as [<- | Hin].
  - rewrite Z.eqb_refl. simpl. rewrite filter_notin; auto.
  - destruct (Z.eqb_spec (row_id a) (row_id r)) as [E|].
    + exfalso. apply Hn. rewrite E. apply in_map; auto.
    + auto.
Qed.

Lemma status_of_set_other id st x db :
  id <> x -> status_of x (set_executed id st db) = status_of x db.
Proof.
  unfold status_of, set_executed. intros Hne.
  induction db as [|r l IH]; simpl; auto.
  destruct (Z.eqb_spec (row_id r) id) as [E|]; simpl.
  - replace (row_id r =? x) with false by (symmetry; apply Z.eqb_neq; congruence).
    exact IH.
  - destruct (row_id r =? x); simpl; [f_equal|]; exact IH.
Qed.

Lemma replay_status x new db :
  count_ev (is_mark_of x) new = 0%nat ->
  status_of x (replay_marks new db) = status_of x db.
Proof.
  unfold count_ev. induction new as [|ev new IH]; simpl; intros H; auto.
  destruct ev; simpl in H; try (apply IH; exact H).
  destruct (Z.eqb_spec id x); simpl in H; [discriminate|].
  rewrite status_of_set_other; auto.
Qed.

Lemma replay_no_marks new db :
  count_ev is_mark new = 0%nat -> replay_marks new db = db.
Proof.
  unfold count_ev. induction new as [|ev new IH]; simpl; intros H; auto.
  destruct ev; simpl in H; try discriminate; apply IH; exact H.
Qed.

Lemma count_ev_mono (f f' : event -> bool) l :
  (forall ev, f ev = true -> f' ev = true) ->
  (count_ev f l <= count_ev f' l)%nat.
Proof.
  intros Hf. unfold count_ev. induction l as [|ev l IH]; simpl; auto.
  destruct (f ev) eqn:E.
  - rewrite (Hf ev E). simpl. lia.
  - destruct (f' ev); simpl; lia.
Qed.

Lemma bounded_at {A} f k (m : M A) w new :
  bounded f k m -> w_log (snd (m w)) = new ++ w_log w ->
  (count_ev f new <= k)%nat /\ w_db (snd (m w)) = replay_marks new (w_db w).
Proof.
  intros H Hl. destruct (H w) as (new' & H1 & H2 & H3).
  rewrite Hl in H1. apply app_inv_tail in H1. subst. auto.
Qed.

(** ** Marks made by the engine *)

Lemma chase_no_mark_of g side size p reduce_only max_requotes sleep_seconds x :
  bounded (is_mark_of x) 0
    (place_limit_order_with_chase_openorders g side size p reduce_only
       max_requotes sleep_seconds).
Proof.
  eapply bounded_mono; [|apply chase_no_mark]. intros [] H; simpl in *; auto.
Qed.

Lemma chase_no_stray g side size p reduce_only max_requotes sleep_seconds ids :
  bounded (stray_mark ids) 0
    (place_limit_order_with_chase_openorders g side size p reduce_only
       max_requotes sleep_seconds).
Proof.
  eapply bounded_mono; [|apply chase_no_mark]. intros [] H; simpl in *; auto.
Qed.

#[local] Hint Resolve chase_no_mark_of chase_no_stray chase_orders : bnd.

Lemma process_signal_marks_of g d s x :
  bounded (is_mark_of x) (if sig_id s =? x then 1 else 0) (process_signal g d s).
Proof.
  unfold process_signal, handle_open, handle_close, mark_signal_failed,
    mark_signal_executed. bnd.
Qed.

Lemma process_signal_no_stray g d s ids :
  existsb (Z.eqb (sig_id s)) ids = true ->
  bounded (stray_mark ids) 0 (process_signal g d s).
Proof.
  intros Hid. unfold process_signal, handle_open, handle_close,
    mark_signal_failed, mark_signal_executed. bnd.
Qed.

Lemma process_signals_marks_of g d x sigs :
  bounded (is_mark_of x) (length (filter (fun s => Z.eqb (sig_id s) x) sigs))
    (process_signals g d sigs).
Proof.
  induction sigs as [|s sigs IH]; simpl; [apply bounded_ret|].
  eapply bounded_bind; [apply process_signal_marks_of | intros _ |].
  - eapply bounded_weaken; [exact IH|].
    destruct (sig_id s =? x); simpl; lia.
  - destruct (sig_id s =? x); simpl; lia.
Qed.

Lemma process_signals_no_stray g d ids sigs :
  (forall s, In s sigs -> existsb (Z.eqb (sig_id s)) ids = true) ->
  bounded (stray_mark ids) 0 (process_signals g d sigs).
Proof.
  induction sigs as [|s sigs IH]; simpl; intros H; [apply bounded_ret|].
  eapply bounded_bind; [apply process_signal_no_stray; auto | intros _ | lia].
  apply IH. auto.
Qed.

Lemma count_ev_zero_in f l ev :
  count_ev f l = 0%nat -> In ev l -> f ev = false.
Proof.
  unfold count_ev. induction l as [|e l IH]; simpl; intros H Hin; [easy|].
  destruct (f e) eqn:E; simpl in H; [discriminate|].
  destruct Hin as [<-|Hin]; auto.
Qed.

Lemma count_ev_zero_of f l :
  (forall ev, In ev l -> f ev = false) -> count_ev f l = 0%nat.
Proof.
  unfold count_ev. induction l as [|e l IH]; simpl; intros H; auto.
  rewrite (H e (or_introl eq_refl)). apply IH. auto.
Qed.

Lemma status_of_in x db st :
  In st (status_of x db) -> exists r, In r db /\ row_id r = x /\ row_executed r = st.
Proof.
  unfold status_of. intros H. apply in_map_iff in H as (r & <- & Hr).
  apply filter_In in Hr as [Hr E]. exists r. repeat split; auto.
  apply Z.eqb_eq; auto.
Qed.

Lemma exec_marks g w :
  exists new,
    w_log (snd (execute_pending_signals g w)) = new ++ w_log w /\
    w_db (snd (execute_pending_signals g w)) = replay_marks new (w_db w) /\
    (forall x, count_ev (is_mark_of x) new <=
       length (filter (fun s => Z.eqb (sig_id s) x)
                 (get_unexecuted_signals (w_db w))))%nat /\
    count_ev (stray_mark (map sig_id (get_unexecuted_signals (w_db w)))) new = 0%nat.
Proof.
  pose proof (bounded_get_size_decimals g is_mark) as Hd. simpl in Hd.
  destruct (Hd w) as (n1 & L1 & D1 & C1).
  assert (N1 : forall f, (forall ev, f ev = true -> is_mark ev = true) ->
                 count_ev f n1 = 0%nat).
  { intros f Hf. pose proof (count_ev_mono f is_mark n1 Hf). lia. }
  assert (Hdb : w_db (snd (get_size_decimals g w)) = w_db w).
  { rewrite D1. apply replay_no_marks. lia. }
  assert (Hs : forall ids ev, stray_mark ids ev = true -> is_mark ev = true).
  { intros ids [] H; simpl in *; auto. }
  assert (Hm : forall x ev, is_mark_of x ev = true -> is_mark ev = true).
  { intros x [] H; simpl in *; auto. }
  unfold execute_pending_signals, bind.
  destruct (get_size_decimals g w) as [[d|e] w1] eqn:E; simpl in *.
  - rewrite Hdb.
    destruct (get_unexecuted_signals (w_db w)) as [|s rest] eqn:EF.
    + exists n1. simpl. repeat split; auto;
        try (intros x; rewrite (N1 _ (Hm x)); lia); apply N1, Hs.
    + destruct (process_signals_no_stray g d (map sig_id (s :: rest)) (s :: rest)
                  ltac:(intros s' Hin; apply existsb_exists; exists (sig_id s');
                        split; [apply in_map; auto | apply Z.eqb_refl]) w1)
        as (n2 & L2 & D2 & C2).
      change (bind (process_signal g d s) (fun _ => process_signals g d rest))
        with (process_signals g d (s :: rest)).
      exists (n2 ++ n1).
      rewrite L2, L1, D2, Hdb, app_assoc, replay_marks_app,
        (replay_no_marks n1); [|lia].
      repeat split; auto.
      * intros x. rewrite count_ev_app, (N1 _ (Hm x)).
        destruct (bounded_at _ _ _ w1 n2 (process_signals_marks_of g d x
                    (s :: rest)) L2) as [Cx _]. lia.
      * rewrite count_ev_app, (N1 _ (Hs _)). lia.
  - exists n1. repeat split; auto;
      try (intros x; rewrite (N1 _ (Hm x)); lia); apply N1, Hs.
Qed.



(** ** Rounding *)

Lemma round_half_even_near x :
  (Qabs (inject_Z (round_half_even x) - x) <= 1 # 2)%Q.
Proof.
  unfold round_half_even.
  pose proof (Qfloor_le x) as H1. pose proof (Qlt_floor x) as H2.
  set (f := Qfloor x) in *. rewrite inject_Z_plus in H2.
  change (inject_Z 1) with 1%Q in H2.
  apply Qabs_Qle_condition.
  destruct (Qlt_le_dec (x - inject_Z f) (1 # 2)) as [Hl|Hl].
  - split; lra.
  - destruct (Qeq_bool (x - inject_Z f) (1 # 2)) eqn:E.
    + apply Qeq_bool_iff in E.
      destruct (Z.even f); rewrite ?inject_Z_plus; change (inject_Z 1) with 1%Q;
        split; lra.
    + rewrite inject_Z_plus. change (inject_Z 1) with 1%Q. split; lra.
Qed.

Lemma py_round_near x nd :
  (Qabs (py_round x nd - x) <= (1 # 2) / (10 # 1) ^ nd)%Q.
Proof.
  unfold py_round.
  assert (Hs : (0 < (10 # 1) ^ nd)%Q) by (apply Qpower_0_lt; reflexivity).
  set (s := ((10 # 1) ^ nd)%Q) in *.
  set (R := inject_Z (round_half_even (x * s))).
  pose proof (round_half_even_near (x * s)) as H. fold R in H.
  assert (E : (R / s - x == (R - x * s) * / s)%Q) by (field; lra).
  rewrite E, Qabs_Qmult, (Qabs_pos (/ s)) by (apply Qinv_le_0_compat; lra).
  unfold Qdiv. apply Qmult_le_compat_r; [exact H|].
  apply Qinv_le_0_compat; lra.
Qed.

Lemma bind_gcall_bounded {A B} f k ev (h : nat -> Exc A) (k' : A -> M B) w a :
  is_mark ev = false -> h (w_calls w) = Ret a -> bounded f k (k' a) ->
  exists new,
    w_log (snd (bind (gcall ev h) k' w)) = new ++ ev :: w_log w /\
    w_db (snd (bind (gcall ev h) k' w)) = replay_marks new (w_db w) /\
    (count_ev f new <= k)%nat.
Proof.
  intros Hm Hh Hk. unfold bind, gcall. rewrite Hh.
  exact (Hk {| w_calls := S (w_calls w); w_db := w_db w;
               w_log := ev :: w_log w |}).
Qed.

Lemma stray_order_false b sz ro b' sz' px ro' :
  stray_order b sz ro (EvOrder b' sz' px ro') = false ->
  b' = b /\ sz' = sz /\ ro' = ro.
Proof.
  simpl. intros H. apply negb_false_iff in H.
  apply andb_prop in H as [H H3]. apply andb_prop in H as [H1 H2].
  apply Bool.eqb_prop in H1, H3. unfold Q_syn_eqb in H2.
  apply andb_prop in H2 as [E1 E2]. apply Z.eqb_eq in E1. apply Pos.eqb_eq in E2.
  destruct sz, sz'; simpl in *; subst. auto.
Qed.

(** ** The claims *)

(** C2: when the re-quote budget is exhausted (the iteration with
    [attempt >= max_requotes]) and the order is still in [open_orders],
    the iteration returns ["ok"] with statuses [["resting"]], and the
    caller's reading of that result marks the signal executed (1). *)
Theorem resting_exhausted_marks_executed g side size reduce_only
    max_requotes sleep_seconds oid old_pos attempt p w l :
  max_requotes <= attempt ->
  g_open_orders g (w_calls w) = Ret (OOList l) ->
  existsb (oid_matches oid) l = true ->
  fst (poll_body g side size reduce_only max_requotes sleep_seconds oid
         old_pos attempt p w) = Ret (Stop (chase_resting oid)) /\
  cr_status (chase_resting oid) = "ok" /\
  cr_statuses (chase_resting oid) = ["resting"] /\
  signal_status_of (chase_resting oid) = 1.
Proof.
  intros Hle Hopen Hin.
  unfold poll_body, time_sleep, emit, bind, gcall, ret. simpl.
  rewrite Hopen. simpl. rewrite Hin.
  replace (attempt <? max_requotes) with false by (symmetry; apply Z.ltb_ge; lia).
  repeat split; reflexivity.
Qed.

Lemma resting_exhausted_marks_executed_witness :
  (5 <= 5 /\ g_open_orders (calm_gateway (btc_at 0) [Some 7]) 0 = Ret (OOList [Some 7])
   /\ existsb (oid_matches 7) [Some 7] = true) /\
  (fst (poll_body (calm_gateway (btc_at 0) [Some 7]) "long" (1 # 100) false 5 2
          7 0 5 50000 (world_of [])) = Ret (Stop (chase_resting 7)) /\
   cr_status (chase_resting 7) = "ok" /\
   cr_statuses (chase_resting 7) = ["resting"] /\
   signal_status_of (chase_resting 7) = 1).
Proof.
  split; [repeat split; reflexivity || lia|].
  apply (resting_exhausted_marks_executed (calm_gateway (btc_at 0) [Some 7])
           "long" (1 # 100) false 5 2 7 0 5 50000 (world_of []) [Some 7]);
    [lia | reflexivity | reflexivity].
Defined.

(** C7: with the order neither in [open_orders] nor in [user_fills], a move
    of the position from 0.0 to +0.0098 against a long of size 0.01 passes
    the +/-10% position check and the iteration returns ["filled-fallback"]. *)
Theorem fallback_fill_within_tolerance g max_requotes sleep_seconds oid
    attempt p w l fl us :
  g_open_orders g (w_calls w) = Ret (OOList l) ->
  existsb (oid_matches oid) l = false ->
  g_user_fills g (S (w_calls w)) = Ret (FList fl) ->
  existsb (oid_matches oid) fl = false ->
  g_user_state g (S (S (w_calls w))) = Ret us ->
  btc_szi (us_positions us) = (98 # 10000)%Q ->
  check_position_change 0 (98 # 10000) "long" (1 # 100) = true /\
  fst (poll_body g "long" (1 # 100) false max_requotes sleep_seconds oid
         0 attempt p w) = Ret (Stop (chase_ok "filled-fallback")).
Proof.
  intros Hopen Hno Hfills Hnf Hus Hpos. split; [reflexivity|].
  destruct w as [c db lg]. cbn in *.
  unfold poll_body, time_sleep, emit, bind, gcall, ret, get_btc_position.
  cbn. rewrite Hopen. cbn. rewrite Hno. cbv beta iota delta [w_calls].
  rewrite Hfills. cbn. rewrite Hnf. cbv beta iota delta [w_calls].
  rewrite Hus. cbn. rewrite Hpos. reflexivity.
Qed.

Lemma fallback_fill_within_tolerance_witness :
  fst (poll_body (calm_gateway (btc_at (98 # 10000)) []) "long" (1 # 100)
         false 5 2 7 0 0 50000 (world_of [])) =
  Ret (Stop (chase_ok "filled-fallback")).
Proof.
  apply (fallback_fill_within_tolerance (calm_gateway (btc_at (98 # 10000)) [])
           5 2 7 0 50000 (world_of []) [] [] (btc_at (98 # 10000)));
    reflexivity.
Defined.

(** C8: a chase makes at most [max_requotes + 1] polls of [open_orders]
    (one per iteration of the polling loop) and every value it returns is
    one of its terminal outcomes; otherwise a gateway exception propagates. *)
Theorem chase_bounded_and_terminal g side size p reduce_only max_requotes
    sleep_seconds w :
  (exists new,
     w_log (snd (place_limit_order_with_chase_openorders g side size p
                   reduce_only max_requotes sleep_seconds w)) = new ++ w_log w /\
     (count_ev is_poll new <= Z.to_nat (max_requotes + 1))%nat) /\
  match fst (place_limit_order_with_chase_openorders g side size p reduce_only
               max_requotes sleep_seconds w) with
  | Ret r => terminal_outcome r
  | Raise _ => True
  end.
Proof.
  split.
  - destruct (chase_polls g side size reduce_only max_requotes sleep_seconds p w)
      as (new & H1 & _ & H3).
    exists new. auto.
  - apply chase_returns.
Qed.

(** C9: a value returned by the chase has status ["err"] exactly when one
    of its statuses contains ["error"], so the caller's two failure tests
    agree: the signal is failed (2) iff the status is ["err"], else
    executed (1). *)
Theorem chase_err_iff_error_status g side size p reduce_only max_requotes
    sleep_seconds w :
  match fst (place_limit_order_with_chase_openorders g side size p reduce_only
               max_requotes sleep_seconds w) with
  | Ret r =>
      (cr_status r = "err" <-> existsb (str_in "error") (cr_statuses r) = true) /\
      signal_status_of r = (if String.eqb (cr_status r) "err" then 2 else 1)
  | Raise _ => True
  end.
Proof.
  pose proof (chase_returns g side size reduce_only max_requotes sleep_seconds
                p w) as H.
  destruct (fst _) as [r|e]; [|exact I].
  destruct H as [Hin | [oid ->]].
  - unfold chase_outcomes in Hin. simpl in Hin.
    repeat (destruct Hin as [<- | Hin];
            [split; [split; intro; reflexivity || discriminate | reflexivity]|]).
    destruct Hin.
  - split; [split; intro; discriminate | reflexivity].
Qed.

(** C10: once the polling loop is entered ([max_requotes >= 0]) it never
    runs to completion: the last iteration returns on every branch, so the
    code after the loop (["filled-final-fallback"] and ["chase loop ended,
    no fill detected"]) is unreachable. *)
Theorem post_loop_unreachable g side size reduce_only max_requotes
    sleep_seconds oid old_pos p w :
  0 <= max_requotes ->
  match fst (poll_loop g side size reduce_only max_requotes sleep_seconds oid
               old_pos (Z.to_nat (max_requotes + 1)) 0 p w) with
  | Ret (Continue _) => False
  | _ => True
  end.
Proof.
  intros H.
  pose proof (poll_loop_no_fallthrough g side size reduce_only max_requotes
                sleep_seconds oid old_pos (Z.to_nat (max_requotes + 1)) 0 p)
    as L.
  specialize (L ltac:(lia) ltac:(lia) w).
  destruct (fst _) as [[q|r]|e]; auto.
Qed.

Lemma post_loop_unreachable_witness :
  0 <= 5 /\
  match fst (poll_loop (calm_gateway (btc_at 0) [Some 7]) "long" (1 # 100)
               false 5 2 7 0 (Z.to_nat (5 + 1)) 0 50000 (world_of [])) with
  | Ret (Continue _) => False
  | _ => True
  end.
Proof.
  split; [lia|].
  apply (post_loop_unreachable (calm_gateway (btc_at 0) [Some 7]) "long"
           (1 # 100) false 5 2 7 0 50000 (world_of [])).
  lia.
Defined.

(** C3: a pass of the engine marks each signal at most once, only from
    pending (0) to executed (1) or failed (2); a signal already executed or
    failed keeps its status; on a store where every signal is terminal the
    pass leaves the store unchanged.  Signal ids are unique (the table's
    [INTEGER PRIMARY KEY]). *)
Theorem engine_transitions_once g w :
  NoDup (map row_id (w_db w)) ->
  exists new,
    w_log (snd (execute_pending_signals g w)) = new ++ w_log w /\
    w_db (snd (execute_pending_signals g w)) = replay_marks new (w_db w) /\
    (forall x, (count_ev (is_mark_of x) new <= 1)%nat) /\
    (forall id st, In (EvMark id st) new ->
       (st = 1 \/ st = 2) /\ status_of id (w_db w) = [0]) /\
    (forall r, In r (w_db w) -> row_executed r <> 0 ->
       status_of (row_id r) (w_db (snd (execute_pending_signals g w))) =
       [row_executed r]) /\
    ((forall r, In r (w_db w) -> row_executed r <> 0) ->
       w_db (snd (execute_pending_signals g w)) = w_db w).
Proof.
  intros Hnd.
  destruct (exec_marks g w) as (new & L & D & Cx & Cs).
  set (F := get_unexecuted_signals (w_db w)) in *.
  assert (HF : NoDup (map sig_id F)) by (apply fetched_nodup; exact Hnd).
  assert (Hmk : forall id st, In (EvMark id st) new ->
            (st = 1 \/ st = 2) /\ status_of id (w_db w) = [0]).
  { intros id st Hin. pose proof (count_ev_zero_in _ _ _ Cs Hin) as Hf.
    simpl in Hf. apply negb_false_iff, andb_prop in Hf as [Hid Hst].
    split.
    - apply orb_prop in Hst as [Hst|Hst]; apply Z.eqb_eq in Hst; auto.
    - apply existsb_exists in Hid as (y & Hy & Ey). apply Z.eqb_eq in Ey.
      subst y. destruct (fetched_pending _ _ Hy) as (r & Hr & <- & Er).
      rewrite <- Er. apply status_of_nodup; auto. }
  exists new. split; [exact L|]. split; [exact D|].
  split; [|split; [exact Hmk|split]].
  - intros x. specialize (Cx x).
    pose proof (filter_nodup_le1 sig_id x F HF). lia.
  - intros r Hr Hex. rewrite D, replay_status.
    + apply status_of_nodup; auto.
    + assert (Hn : ~ In (row_id r) (map sig_id F)).
      { intros Hin. destruct (fetched_pending _ _ Hin) as (r' & Hr' & Ei & Ee).
        pose proof (status_of_nodup _ _ Hnd Hr) as S1.
        pose proof (status_of_nodup _ _ Hnd Hr') as S2.
        rewrite Ei, S1, Ee in S2. injection S2. auto. }
      specialize (Cx (row_id r)). rewrite (filter_notin sig_id) in Cx; auto.
      simpl in Cx. lia.
  - intros Hall. rewrite D. apply replay_no_marks, count_ev_zero_of.
    intros [] Hin; auto. exfalso.
    destruct (Hmk id status Hin) as [_ Hs].
    destruct (status_of_in id (w_db w) 0) as (r & Hr & _ & Er);
      [rewrite Hs; left; reflexivity|].
    apply (Hall r Hr Er).
Qed.

Lemma engine_transitions_once_witness :
  NoDup (map row_id (w_db (world_of [open_row 1; open_row 2]))) /\
  exists new,
    w_log (snd (execute_pending_signals user_state_down
                  (world_of [open_row 1; open_row 2]))) =
      new ++ w_log (world_of [open_row 1; open_row 2]) /\
    w_db (snd (execute_pending_signals user_state_down
                 (world_of [open_row 1; open_row 2]))) =
      replay_marks new (w_db (world_of [open_row 1; open_row 2])) /\
    (forall x, (count_ev (is_mark_of x) new <= 1)%nat) /\
    (forall id st, In (EvMark id st) new ->
       (st = 1 \/ st = 2) /\
       status_of id (w_db (world_of [open_row 1; open_row 2])) = [0]) /\
    (forall r, In r (w_db (world_of [open_row 1; open_row 2])) ->
       row_executed r <> 0 ->
       status_of (row_id r) (w_db (snd (execute_pending_signals user_state_down
                                          (world_of [open_row 1; open_row 2])))) =
       [row_executed r]) /\
    ((forall r, In r (w_db (world_of [open_row 1; open_row 2])) ->
        row_executed r <> 0) ->
       w_db (snd (execute_pending_signals user_state_down
                    (world_of [open_row 1; open_row 2]))) =
       w_db (world_of [open_row 1; open_row 2])).
Proof.
  assert (H : NoDup (map row_id (w_db (world_of [open_row 1; open_row 2])))).
  { simpl. constructor; [simpl; intros [H|H]; [discriminate|exact H]|].
    constructor; [intros []|constructor]. }
  split; [exact H|]. exact (engine_transitions_once user_state_down _ H).
Defined.

Lemma execute_unfold g w d :
  g_meta g (w_calls w) = Ret (Some d) ->
  execute_pending_signals g w =
  process_signals g d (get_unexecuted_signals (w_db w)) (step_world w EvMeta).
Proof.
  intros H. unfold execute_pending_signals, get_size_decimals, bind, gcall.
  cbv beta. rewrite H. unfold ret, read_db. cbv beta iota. cbn [w_db].
  destruct (get_unexecuted_signals (w_db w)); reflexivity.
Qed.

Lemma execute_meta_none g w :
  g_meta g (w_calls w) = Ret None ->
  execute_pending_signals g w =
    (Raise (ValueError "BTC not found in meta data"), step_world w EvMeta).
Proof.
  intros H. unfold execute_pending_signals, get_size_decimals, bind, gcall.
  cbv beta. rewrite H. reflexivity.
Qed.

Lemma execute_meta_raise g w e :
  g_meta g (w_calls w) = Raise e ->
  execute_pending_signals g w = (Raise e, step_world w EvMeta).
Proof.
  intros H. unfold execute_pending_signals, get_size_decimals, bind, gcall.
  cbv beta. rewrite H. reflexivity.
Qed.




(** C4 (as the code behaves): the open handler's size is
    [round(withdrawable * leverage / mid * 0.98, sz_decimals)], Python's
    round to the nearest multiple of [10^-sz_decimals]: it lies within half
    a unit of [w * l / m * 0.98], on either side. *)
Theorem open_trade_size_near withdrawable leverage btc_mid sz_decimals :
  (Qabs (open_trade_size withdrawable leverage btc_mid sz_decimals -
         withdrawable * inject_Z leverage / btc_mid * BUFFER_FACTOR)
   <= (1 # 2) / (10 # 1) ^ sz_decimals)%Q.
Proof. unfold open_trade_size. apply py_round_near. Qed.

(** C4 fails as stated: with 10 withdrawable, leverage 1, mid 5000 and 3
    size decimals, [10 * 1 / 5000 * 0.98 = 0.00196] is rounded up to
    [0.002], and the engine places an order of that size. *)
Lemma open_trade_size_rounds_up :
  (10 * inject_Z 1 / 5000 * BUFFER_FACTOR < open_trade_size 10 1 5000 3)%Q /\
  In (EvOrder true (open_trade_size 10 1 5000 3) 5000 false)
     (w_log (snd (process_signal (calm_gateway (btc_at 0) []) 3
                    (open_signal 1 1) (world_of [])))).
Proof.
  split; [reflexivity|].
  vm_compute. right. left. reflexivity.
Qed.

(** C5 (as the code behaves): every order that the close handler submits
    has size [round(abs(position_size), sz_decimals)], [reduce_only = true]
    and the side opposite to the close signal's [side] field (buy iff that
    field is not ["long"]), whatever the sign of the live position. *)
Theorem close_order_shape g sz_decimals sig w us :
  sig_action sig = "close" ->
  g_user_state g (w_calls w) = Ret us ->
  exists new,
    w_log (snd (process_signal g sz_decimals sig w)) = new ++ w_log w /\
    forall is_buy sz px reduce_only,
      In (EvOrder is_buy sz px reduce_only) new ->
      is_buy = String.eqb (opposite_side (sig_side sig)) "long" /\
      sz = py_round (Qabs (btc_szi (us_positions us))) sz_decimals /\
      reduce_only = true.
Proof.
  intros Hact Hus.
  unfold process_signal. rewrite Hact.
  change (String.eqb "close" "open") with false.
  change (String.eqb "close" "close") with true. cbv iota.
  unfold handle_close, mark_signal_executed, mark_signal_failed. cbv zeta.
  match goal with |- context [bind (gcall EvUserState (g_user_state g)) ?k w] =>
  edestruct (bind_gcall_bounded
    (stray_order (String.eqb (opposite_side (sig_side sig)) "long")
       (py_round (Qabs (btc_szi (us_positions us))) sz_decimals) true) 0
    EvUserState (g_user_state g) k w us eq_refl Hus) as (new & L & _ & C)
  end.
  - cbv beta. bnd.
  - exists (new ++ [EvUserState]). rewrite <- app_assoc. split; [exact L|].
    intros b sz px ro Hin. apply in_app_or in Hin as [Hin|[Hin|[]]];
      [|discriminate].
    assert (C0 : count_ev (stray_order (String.eqb (opposite_side (sig_side sig))
                   "long") (py_round (Qabs (btc_szi (us_positions us)))
                   sz_decimals) true) new = 0%nat) by lia.
    apply (stray_order_false _ _ _ _ _ px).
    exact (count_ev_zero_in _ _ _ C0 Hin).
Qed.

Lemma close_order_shape_witness :
  (sig_action (close_signal 4) = "close" /\
   g_user_state (calm_gateway (btc_at (-(1 # 100))) []) (w_calls (world_of [])) =
     Ret (btc_at (-(1 # 100)))) /\
  exists new,
    w_log (snd (process_signal (calm_gateway (btc_at (-(1 # 100))) []) 3
                  (close_signal 4) (world_of []))) = new ++ w_log (world_of []) /\
    forall is_buy sz px reduce_only,
      In (EvOrder is_buy sz px reduce_only) new ->
      is_buy = String.eqb (opposite_side (sig_side (close_signal 4))) "long" /\
      sz = py_round (Qabs (btc_szi (us_positions (btc_at (-(1 # 100)))))) 3 /\
      reduce_only = true.
Proof.
  split; [split; reflexivity|].
  apply (close_order_shape (calm_gateway (btc_at (-(1 # 100))) []) 3
           (close_signal 4) (world_of []) (btc_at (-(1 # 100))));
    reflexivity.
Defined.

(** C5 fails as stated: a close signal with side ["long"] (as the decision
    process writes them) against a short live position of -0.01 submits a
    sell (is_buy = false) order, the same side as the position. *)
Lemma close_side_ignores_position :
  (btc_szi (us_positions (btc_at (-(1 # 100)))) < 0)%Q /\
  w_log (snd (process_signal (calm_gateway (btc_at (-(1 # 100))) []) 3
                (close_signal 4) (world_of []))) =
    [EvMark 4 1; EvOrder false (py_round (Qabs (-(1 # 100))) 3) 5000 true;
     EvUserState; EvAllMids; EvUserState].
Proof. split; [reflexivity | vm_compute; reflexivity]. Qed.

(** C6: a close signal processed while the BTC position read from the
    gateway is zero is marked executed (1), and the only gateway call is
    that [user_state] read: no order is placed. *)
Theorem close_flat_marks_executed g sz_decimals sig w us :
  sig_action sig = "close" ->
  g_user_state g (w_calls w) = Ret us ->
  (btc_szi (us_positions us) == 0)%Q ->
  process_signal g sz_decimals sig w =
    (Ret tt, {| w_calls := S (w_calls w);
                w_db := set_executed (sig_id sig) 1 (w_db w);
                w_log := [EvMark (sig_id sig) 1; EvUserState] ++ w_log w |}).
Proof.
  intros Hact Hus Hz.
  unfold process_signal. rewrite Hact.
  change (String.eqb "close" "open") with false.
  change (String.eqb "close" "close") with true. cbv iota.
  unfold handle_close, bind, gcall. rewrite Hus. cbv beta zeta.
  apply Qeq_bool_iff in Hz. rewrite Hz. reflexivity.
Qed.

Lemma close_flat_marks_executed_witness :
  process_signal (calm_gateway (btc_at 0) []) 3 (close_signal 4)
    (world_of [open_row 4]) =
  (Ret tt, {| w_calls := 1;
              w_db := set_executed 4 1 [open_row 4];
              w_log := [EvMark 4 1; EvUserState] |}).
Proof.
  apply (close_flat_marks_executed (calm_gateway (btc_at 0) []) 3
           (close_signal 4) (world_of [open_row 4]) (btc_at 0));
    reflexivity.
Defined.

(** ** Further properties of the engine *)

(** *** The queue of pending signals *)

Lemma insert_by_id_front r l :
  (forall x, In x l -> row_id r <= row_id x) -> insert_by_id r l = r :: l.
Proof.
  destruct l as [|x l]; simpl; intros H; [reflexivity|].
  replace (row_id r <=? row_id x) with true; [reflexivity|].
  symmetry. apply Z.leb_le, H. left. reflexivity.
Qed.

Lemma insert_by_id_in r l x : In x (insert_by_id r l) <-> x = r \/ In x l.
Proof.
  split; intros H.
  - apply (Permutation_in _ (insert_by_id_perm r l)) in H.
    destruct H; auto.
  - apply (Permutation_in _ (Permutation_sym (insert_by_id_perm r l))).
    destruct H as [->|H]; [left|right]; auto.
Qed.

Lemma insert_by_id_sorted r l :
  StronglySorted id_le l -> StronglySorted id_le (insert_by_id r l).
Proof.
  unfold id_le. induction l as [|x l IH]; simpl; intros H.
  - repeat constructor.
  - inversion H as [|? ? Hs Hf]; subst.
    destruct (Z.leb_spec (row_id r) (row_id x)).
    + constructor; [exact H|]. constructor; [lia|].
      eapply Forall_impl; [|exact Hf]. simpl. intros. lia.
    + constructor; [apply IH, Hs|].
      apply Forall_forall. intros y Hy. apply insert_by_id_in in Hy as [->|Hy].
      * lia.
      * eapply Forall_forall in Hf; [exact Hf|exact Hy].
Qed.

Lemma sort_by_id_sorted l : StronglySorted id_le (sort_by_id l).
Proof.
  induction l as [|x l IH]; simpl; [constructor|].
  apply insert_by_id_sorted, IH.
Qed.

Lemma filter_insert_by_id (p : Row -> bool) r l :
  StronglySorted id_le l ->
  filter p (insert_by_id r l) =
  if p r then insert_by_id r (filter p l) else filter p l.
Proof.
  unfold id_le. induction l as [|x l IH]; intros H.
  - simpl. destruct (p r); reflexivity.
  - inversion H as [|? ? Hs Hf]; subst.
    assert (Hin : forall y, In y (filter p (x :: l)) -> In y (x :: l))
      by (intros y Hy; apply filter_In in Hy as [Hy _]; exact Hy).
    change (insert_by_id r (x :: l)) with
      (if row_id r <=? row_id x then r :: x :: l else x :: insert_by_id r l).
    destruct (Z.leb_spec (row_id r) (row_id x)).
    + change (filter p (r :: x :: l)) with
        (if p r then r :: filter p (x :: l) else filter p (x :: l)).
      destruct (p r) eqn:Er; [|reflexivity].
      symmetry. apply insert_by_id_front.
      intros y Hy. apply Hin in Hy. destruct Hy as [<-|Hy]; [lia|].
      eapply Forall_forall in Hf; [|exact Hy]. lia.
    + change (filter p (x :: insert_by_id r l)) with
        (if p x then x :: filter p (insert_by_id r l)
         else filter p (insert_by_id r l)).
      change (filter p (x :: l)) with
        (if p x then x :: filter p l else filter p l).
      rewrite (IH Hs).
      destruct (p x) eqn:Ex, (p r) eqn:Er; auto.
      simpl. replace (row_id r <=? row_id x) with false; [reflexivity|].
      symmetry. apply Z.leb_gt. lia.
Qed.

Lemma sort_by_id_filter (p : Row -> bool) l :
  sort_by_id (filter p l) = filter p (sort_by_id l).
Proof.
  induction l as [|x l IH]; simpl; [reflexivity|].
  rewrite filter_insert_by_id by apply sort_by_id_sorted.
  destruct (p x); simpl; rewrite IH; reflexivity.
Qed.

Lemma filter_set_executed_pending x st db :
  st <> 0 ->
  filter (fun r => row_executed r =? 0) (set_executed x st db) =
  filter (fun r => negb (row_id r =? x)) (filter (fun r => row_executed r =? 0) db).
Proof.
  intros Hst. unfold set_executed.
  induction db as [|r db IH]; simpl; [reflexivity|].
  destruct (row_id r =? x) eqn:Ei; simpl.
  - replace (st =? 0) with false by (symmetry; apply Z.eqb_neq; exact Hst).
    rewrite IH. destruct (row_executed r =? 0); simpl; [rewrite Ei|]; reflexivity.
  - rewrite IH. destruct (row_executed r =? 0); simpl; [rewrite Ei|]; reflexivity.
Qed.

Lemma map_sig_of_row_filter x l :
  map sig_of_row (filter (fun r => negb (row_id r =? x)) l) =
  filter (fun s => negb (sig_id s =? x)) (map sig_of_row l).
Proof.
  induction l as [|r l IH]; simpl; [reflexivity|].
  destruct (row_id r =? x); simpl; rewrite IH; reflexivity.
Qed.

Lemma get_unexecuted_in db s :
  In s (get_unexecuted_signals db) <->
  exists r, In r db /\ row_executed r = 0 /\ s = sig_of_row r.
Proof.
  unfold get_unexecuted_signals. rewrite in_map_iff. split.
  - intros (r & <- & Hr).
    apply (Permutation_in _ (sort_by_id_perm _)) in Hr.
    apply filter_In in Hr as [Hr He]. exists r. repeat split; auto.
    apply Z.eqb_eq. exact He.
  - intros (r & Hr & He & ->). exists r. split; [reflexivity|].
    apply (Permutation_in _ (Permutation_sym (sort_by_id_perm _))).
    apply filter_In. split; [exact Hr|]. apply Z.eqb_eq. exact He.
Qed.

Lemma map_sorted {A B} (R : A -> A -> Prop) (R' : B -> B -> Prop) (f : A -> B) l :
  (forall a b, R a b -> R' (f a) (f b)) ->
  StronglySorted R l -> StronglySorted R' (map f l).
Proof.
  intros Hf. induction l as [|a l IH]; simpl; intros H; [constructor|].
  inversion H as [|? ? Hs Ha]; subst. constructor; [apply IH, Hs|].
  apply Forall_map. eapply Forall_impl; [|exact Ha]. auto.
Qed.

(** X1: [get_unexecuted_signals] returns the rows with [executed = 0], one
    signal per row (a permutation of them), in ascending id order. *)
Theorem get_unexecuted_sorted_pending db :
  StronglySorted (fun a b => sig_id a <= sig_id b) (get_unexecuted_signals db) /\
  Permutation (get_unexecuted_signals db)
              (map sig_of_row (filter (fun r => row_executed r =? 0) db)).
Proof.
  split.
  - unfold get_unexecuted_signals. eapply map_sorted; [|apply sort_by_id_sorted].
    unfold id_le. simpl. auto.
  - unfold get_unexecuted_signals. apply Permutation_map, sort_by_id_perm.
Qed.

(** X2: marking a signal executed or failed and fetching the queue again
    gives the previous queue without that signal, the others in the same
    order. *)
Theorem mark_then_fetch db x st :
  st <> 0 ->
  get_unexecuted_signals (set_executed x st db) =
  filter (fun s => negb (sig_id s =? x)) (get_unexecuted_signals db).
Proof.
  intros Hst. unfold get_unexecuted_signals.
  rewrite filter_set_executed_pending by exact Hst.
  rewrite sort_by_id_filter. apply map_sig_of_row_filter.
Qed.

Lemma mark_then_fetch_witness :
  1 <> 0 /\
  get_unexecuted_signals (set_executed 1 1 [row_of 2 "close" 0; row_of 1 "open" 0]) =
  filter (fun s => negb (sig_id s =? 1))
    (get_unexecuted_signals [row_of 2 "close" 0; row_of 1 "open" 0]).
Proof.
  split; [lia|]. apply mark_then_fetch. lia.
Defined.

(** *** Stepping through gateway calls *)

Lemma bind_gcall_ret {A B} ev (h : nat -> Exc A) (k : A -> M B) w a :
  h (w_calls w) = Ret a -> bind (gcall ev h) k w = k a (step_world w ev).
Proof. intros H. unfold bind, gcall. rewrite H. reflexivity. Qed.

Lemma bind_gcall_raise {A B} ev (h : nat -> Exc A) (k : A -> M B) w e :
  h (w_calls w) = Raise e -> bind (gcall ev h) k w = (Raise e, step_world w ev).
Proof. intros H. unfold bind, gcall. rewrite H. reflexivity. Qed.

Lemma bind_set_leverage_ret {B} g l (k : unit -> M B) w b :
  g_update_leverage g (w_calls w) = Ret b ->
  bind (set_leverage g l) k w = k tt (step_world w (EvUpdateLeverage l)).
Proof. intros H. unfold set_leverage, bind, gcall, ret. cbv beta. rewrite H. reflexivity. Qed.

Lemma bind_set_leverage_raise {B} g l (k : unit -> M B) w e :
  g_update_leverage g (w_calls w) = Raise e ->
  bind (set_leverage g l) k w = (Raise e, step_world w (EvUpdateLeverage l)).
Proof. intros H. unfold set_leverage, bind, gcall, ret. cbv beta. rewrite H. reflexivity. Qed.

Lemma process_signal_other g d s :
  acts s = false -> process_signal g d s = ret tt.
Proof.
  unfold acts, process_signal. intros H.
  apply orb_false_elim in H as [H1 H2]. rewrite H1, H2. reflexivity.
Qed.

(** X3: a pass starts with the [meta] call, before looking at the queue.
    If the meta data does not list BTC, the pass raises [ValueError] after
    that single call with the store unchanged, even with no pending signal;
    if BTC is listed and no signal is pending, the pass returns after that
    single call with the store unchanged. *)
Theorem pass_starts_with_meta g w :
  (g_meta g (w_calls w) = Ret None ->
   execute_pending_signals g w =
     (Raise (ValueError "BTC not found in meta data"), step_world w EvMeta)) /\
  (forall d, g_meta g (w_calls w) = Ret (Some d) ->
   (forall r, In r (w_db w) -> row_executed r <> 0) ->
   execute_pending_signals g w = (Ret tt, step_world w EvMeta)).
Proof.
  split.
  - intros H. unfold execute_pending_signals, get_size_decimals, bind, gcall.
    cbv beta. rewrite H. reflexivity.
  - intros d H Hall. rewrite (execute_unfold g w d H).
    destruct (get_unexecuted_signals (w_db w)) as [|s rest] eqn:E;
      [reflexivity|].
    exfalso. assert (Hs : In s (get_unexecuted_signals (w_db w)))
      by (rewrite E; left; reflexivity).
    apply get_unexecuted_in in Hs as (r & Hr & He & _). exact (Hall r Hr He).
Qed.

Lemma pass_starts_with_meta_witness :
  (g_meta no_btc_gateway (w_calls (world_of [open_row 1])) = Ret None /\
   execute_pending_signals no_btc_gateway (world_of [open_row 1]) =
     (Raise (ValueError "BTC not found in meta data"),
      step_world (world_of [open_row 1]) EvMeta)) /\
  (g_meta (calm_gateway (btc_at 0) []) (w_calls (world_of [row_of 1 "open" 1]))
     = Ret (Some 3) /\
   (forall r, In r (w_db (world_of [row_of 1 "open" 1])) -> row_executed r <> 0) /\
   execute_pending_signals (calm_gateway (btc_at 0) []) (world_of [row_of 1 "open" 1])
     = (Ret tt, step_world (world_of [row_of 1 "open" 1]) EvMeta)).
Proof.
  assert (Hall : forall r, In r (w_db (world_of [row_of 1 "open" 1])) ->
                 row_executed r <> 0)
    by (intros r [<-|[]]; discriminate).
  split.
  - split; [reflexivity|].
    exact (proj1 (pass_starts_with_meta no_btc_gateway (world_of [open_row 1]))
             eq_refl).
  - split; [reflexivity|]. split; [exact Hall|].
    exact (proj2 (pass_starts_with_meta (calm_gateway (btc_at 0) [])
                    (world_of [row_of 1 "open" 1])) 3 eq_refl Hall).
Defined.

(** *** Runs on a reliable exchange *)

Lemma clean_ret {A} (P : A -> Prop) a : P a -> clean P (ret a).
Proof. intros H w. exists a. auto. Qed.

Lemma clean_ret_true {A} (a : A) : clean (fun _ => True) (ret a).
Proof. apply clean_ret. exact I. Qed.

Lemma clean_gcall {A} (P : A -> Prop) ev f : answers P f -> clean P (gcall ev f).
Proof.
  intros H w. destruct (H (w_calls w)) as (a & Ha & E).
  exists a. simpl. rewrite E. auto.
Qed.

Lemma clean_emit ev : clean (fun _ => True) (emit ev).
Proof. intros w. exists tt. simpl. auto. Qed.

Lemma clean_time_sleep s : clean (fun _ => True) (time_sleep s).
Proof. apply clean_emit. Qed.

Lemma clean_bind {A B} (P : A -> Prop) (Q : B -> Prop) m k :
  clean P m -> (forall a, P a -> clean Q (k a)) -> clean Q (bind m k).
Proof.
  intros Hm Hk w. destruct (Hm w) as (a & Ha & E1 & D1).
  unfold bind. destruct (m w) as [r w1]. simpl in E1, D1. subst r.
  destruct (Hk a Ha w1) as (b & Hb & E2 & D2). exists b. rewrite D2, D1. auto.
Qed.

Lemma settles_bind {A B} (P : A -> Prop) id (m : M A) (k : A -> M B) :
  clean P m -> (forall a, P a -> settles id (k a)) -> settles id (bind m k).
Proof.
  intros Hm Hk w. destruct (Hm w) as (a & Ha & E1 & D1).
  unfold bind. destruct (m w) as [r w1]. simpl in E1, D1. subst r.
  destruct (Hk a Ha w1) as (b & st & Hst & E2 & D2). exists b, st.
  rewrite D2, D1. auto.
Qed.

Lemma settles_mark id st : st = 1 \/ st = 2 -> settles id (mark id st).
Proof. intros H w. exists tt, st. simpl. auto. Qed.

Lemma signal_status_12 r : signal_status_of r = 1 \/ signal_status_of r = 2.
Proof.
  unfold signal_status_of.
  destruct (String.eqb _ _); [right; reflexivity|].
  destruct (existsb _ _); [right|left]; reflexivity.
Qed.

Create HintDb cln.
#[local] Hint Resolve clean_ret_true clean_gcall clean_emit clean_time_sleep : cln.

Ltac cln :=
  repeat (cbv beta zeta;
    match goal with
    | H : mid_ok MidBad |- _ => destruct H
    | H : mid_ok (MidVal _) |- _ => cbv beta iota delta [mid_ok] in H
    | H : Qeq_bool ?q 0 = true, H' : ~ (?q == 0)%Q |- _ =>
        apply Qeq_bool_iff in H; contradiction
    | |- clean _ (bind (match ?x with _ => _ end) _) => destruct x
    | |- settles _ (bind (match ?x with _ => _ end) _) => destruct x
    | |- clean _ (bind _ _) =>
        eapply clean_bind; [solve [eauto with cln] | intros ? ?]
    | |- settles _ (bind _ _) =>
        eapply settles_bind; [solve [eauto with cln] | intros ? ?]
    | |- clean _ (match ?x with _ => _ end) => destruct x eqn:?
    | |- settles _ (match ?x with _ => _ end) => destruct x eqn:?
    | |- clean _ (ret _) => apply clean_ret; exact I
    | |- settles _ (mark _ _) =>
        apply settles_mark; first [left; reflexivity | right; reflexivity
                                  | apply signal_status_12]
    end).

Section Reliable.
Variable g : Gateway.
Hypothesis Hg : reliable g.

Let Hus : answers (fun _ => True) (g_user_state g).
Proof. apply Hg. Qed.
Let Hlev : answers (fun _ => True) (g_update_leverage g).
Proof. apply Hg. Qed.
Let Hmid : answers mid_ok (g_all_mids g).
Proof. apply Hg. Qed.
Let Hord : answers (fun _ => True) (g_order g).
Proof. apply Hg. Qed.
Let Hmod : answers (fun _ => True) (g_modify g).
Proof. apply Hg. Qed.
Let Hoo : answers (fun _ => True) (g_open_orders g).
Proof. apply Hg. Qed.
Let Hfl : answers (fun _ => True) (g_user_fills g).
Proof. apply Hg. Qed.

#[local] Hint Resolve Hus Hlev Hmid Hord Hmod Hoo Hfl : cln.

Lemma clean_get_btc_position : clean (fun _ => True) (get_btc_position g).
Proof. unfold get_btc_position. cln. Qed.

Lemma clean_set_leverage l : clean (fun _ => True) (set_leverage g l).
Proof. unfold set_leverage. cln. Qed.

#[local] Hint Resolve clean_get_btc_position clean_set_leverage : cln.

Lemma clean_poll_body side size ro mr ss oid old_pos attempt p :
  clean (fun _ => True) (poll_body g side size ro mr ss oid old_pos attempt p).
Proof. unfold poll_body. cln. Qed.

Lemma clean_poll_loop side size ro mr ss oid old_pos n : forall attempt p,
  clean (fun _ => True) (poll_loop g side size ro mr ss oid old_pos n attempt p).
Proof.
  induction n as [|n IH]; intros attempt p; simpl.
  - apply clean_ret. exact I.
  - eapply clean_bind; [apply clean_poll_body | intros [q|r] _].
    + apply IH.
    + apply clean_ret. exact I.
Qed.

#[local] Hint Resolve clean_poll_body clean_poll_loop : cln.

Lemma clean_chase side size p ro mr ss :
  clean (fun _ => True)
    (place_limit_order_with_chase_openorders g side size p ro mr ss).
Proof. unfold place_limit_order_with_chase_openorders. cln. Qed.

#[local] Hint Resolve clean_chase : cln.

Lemma settles_process_signal d s :
  acts s = true -> settles (sig_id s) (process_signal g d s).
Proof.
  unfold acts, process_signal. intros Ha.
  destruct (String.eqb (sig_action s) "open").
  - unfold handle_open, mark_signal_failed. cln.
  - simpl in Ha. rewrite Ha. unfold handle_close, mark_signal_failed,
      mark_signal_executed. cln.
Qed.

End Reliable.

Lemma status_of_set_same x st db :
  status_of x (set_executed x st db) = map (fun _ => st) (status_of x db).
Proof.
  unfold status_of, set_executed. induction db as [|r db IH]; simpl; [reflexivity|].
  destruct (row_id r =? x) eqn:E; simpl; rewrite E; simpl; [f_equal|]; exact IH.
Qed.

Lemma in_map_filter_ids (p : Signal -> bool) x l :
  In x (map sig_id (filter p l)) -> In x (map sig_id l).
Proof.
  intros H. apply in_map_iff in H as (s & <- & Hs).
  apply filter_In in Hs as [Hs _]. apply in_map, Hs.
Qed.

Lemma process_signals_run g d sigs :
  reliable g -> NoDup (map sig_id sigs) -> forall w,
  fst (process_signals g d sigs w) = Ret tt /\
  (forall x, ~ In x (map sig_id (filter acts sigs)) ->
     status_of x (w_db (snd (process_signals g d sigs w))) = status_of x (w_db w)) /\
  (forall s, In s sigs -> acts s = true -> exists st, (st = 1 \/ st = 2) /\
     status_of (sig_id s) (w_db (snd (process_signals g d sigs w))) =
     map (fun _ => st) (status_of (sig_id s) (w_db w))).
Proof.
  intros Hg. induction sigs as [|s rest IH]; intros Hnd w.
  - simpl. split; [reflexivity|]. split; [auto|]. intros s [].
  - inversion Hnd as [|? ? Hn Hd]; subst. specialize (IH Hd).
    assert (Hne : forall s', In s' rest -> sig_id s' <> sig_id s).
    { intros s' Hs' E. apply Hn. rewrite <- E. apply in_map, Hs'. }
    simpl. unfold bind.
    destruct (acts s) eqn:Ea.
    + destruct (settles_process_signal g Hg d s Ea w) as (u & st & Hst & E1 & D1).
      destruct (process_signal g d s w) as [r1 w1]. simpl in E1, D1. subst r1.
      destruct (IH w1) as (R & Oth & Own).
      split; [exact R|]. split.
      * intros x Hx. simpl in Hx.
        rewrite Oth by tauto. rewrite D1. apply status_of_set_other. tauto.
      * intros s' [<-|Hs'] Ha'.
        -- exists st. split; [exact Hst|]. rewrite Oth.
           ++ rewrite D1. apply status_of_set_same.
           ++ intros Hin. apply Hn. eapply in_map_filter_ids, Hin.
        -- destruct (Own s' Hs' Ha') as (st' & Hst' & E'). exists st'.
           split; [exact Hst'|]. rewrite E', D1, status_of_set_other; auto.
           apply not_eq_sym, Hne, Hs'.
    + rewrite (process_signal_other g d s Ea). unfold ret.
      destruct (IH w) as (R & Oth & Own).
      split; [exact R|]. split.
      * intros x Hx. simpl in Hx. apply Oth, Hx.
      * intros s' [<-|Hs'] Ha'; [congruence|]. apply Own; auto.
Qed.

Lemma nodup_map_inj {A B} (f : A -> B) l a b :
  NoDup (map f l) -> In a l -> In b l -> f a = f b -> a = b.
Proof.
  induction l as [|c l IH]; simpl; intros H Ha Hb E; [easy|].
  inversion H as [|? ? Hn Hd]; subst.
  destruct Ha as [<-|Ha], Hb as [<-|Hb]; auto.
  - exfalso. apply Hn. rewrite E. apply in_map, Hb.
  - exfalso. apply Hn. rewrite <- E. apply in_map, Ha.
Qed.

(** X4: on an exchange whose handler endpoints never raise (and whose BTC
    mid, when present, is a non-zero number), a pass with BTC listed in
    the meta data returns normally and leaves every pending ["open"] or
    ["close"] signal executed (1) or failed (2). *)
Theorem reliable_pass_settles g w d :
  reliable g ->
  g_meta g (w_calls w) = Ret (Some d) ->
  NoDup (map row_id (w_db w)) ->
  fst (execute_pending_signals g w) = Ret tt /\
  forall r, In r (w_db w) -> row_executed r = 0 ->
    row_action r = "open" \/ row_action r = "close" ->
    status_of (row_id r) (w_db (snd (execute_pending_signals g w))) = [1] \/
    status_of (row_id r) (w_db (snd (execute_pending_signals g w))) = [2].
Proof.
  intros Hg Hm Hnd. rewrite (execute_unfold g w d Hm).
  destruct (process_signals_run g d (get_unexecuted_signals (w_db w)) Hg
              (fetched_nodup _ Hnd) (step_world w EvMeta)) as (R & _ & Own).
  split; [exact R|]. intros r Hr He Ha.
  assert (Hin : In (sig_of_row r) (get_unexecuted_signals (w_db w)))
    by (apply get_unexecuted_in; exists r; auto).
  assert (Hact : acts (sig_of_row r) = true).
  { unfold acts. simpl. destruct Ha as [-> | ->]; reflexivity. }
  destruct (Own _ Hin Hact) as (st & Hst & E).
  simpl in E. rewrite E, (status_of_nodup _ _ Hnd Hr), He. simpl.
  destruct Hst as [-> | ->]; auto.
Qed.

Lemma calm_gateway_reliable us open : reliable (calm_gateway us open).
Proof.
  repeat split; intros n; eexists; (split; [|reflexivity]); try exact I.
  simpl. intros H. discriminate H.
Qed.

Lemma reliable_pass_settles_witness :
  (reliable (calm_gateway (btc_at 0) []) /\
   g_meta (calm_gateway (btc_at 0) []) 0 = Ret (Some 3) /\
   NoDup (map row_id [row_of 1 "open" 0; row_of 2 "close" 0])) /\
  fst (execute_pending_signals (calm_gateway (btc_at 0) [])
         (world_of [row_of 1 "open" 0; row_of 2 "close" 0])) = Ret tt /\
  forall r, In r [row_of 1 "open" 0; row_of 2 "close" 0] -> row_executed r = 0 ->
    row_action r = "open" \/ row_action r = "close" ->
    status_of (row_id r) (w_db (snd (execute_pending_signals
      (calm_gateway (btc_at 0) [])
      (world_of [row_of 1 "open" 0; row_of 2 "close" 0])))) = [1] \/
    status_of (row_id r) (w_db (snd (execute_pending_signals
      (calm_gateway (btc_at 0) [])
      (world_of [row_of 1 "open" 0; row_of 2 "close" 0])))) = [2].
Proof.
  assert (H : NoDup (map row_id [row_of 1 "open" 0; row_of 2 "close" 0])).
  { simpl. constructor; [simpl; intros [H|H]; [discriminate|exact H]|].
    constructor; [intros []|constructor]. }
  split; [split; [apply calm_gateway_reliable | split; [reflexivity | exact H]]|].
  exact (reliable_pass_settles (calm_gateway (btc_at 0) [])
           (world_of [row_of 1 "open" 0; row_of 2 "close" 0]) 3
           (calm_gateway_reliable _ _) eq_refl H).
Defined.

(** *** Signals the engine does not handle *)

Lemma process_signal_marks_of_acts g d s x :
  bounded (is_mark_of x) (if Z.eqb (sig_id s) x && acts s then 1 else 0)
    (process_signal g d s).
Proof.
  destruct (acts s) eqn:Ea.
  - rewrite andb_true_r. apply process_signal_marks_of.
  - rewrite (process_signal_other g d s Ea), andb_false_r. apply bounded_ret.
Qed.

Lemma process_signals_marks_of_acts g d x sigs :
  bounded (is_mark_of x)
    (length (filter (fun s => Z.eqb (sig_id s) x && acts s) sigs))
    (process_signals g d sigs).
Proof.
  induction sigs as [|s sigs IH]; simpl; [apply bounded_ret|].
  eapply bounded_bind; [apply process_signal_marks_of_acts | intros _ |].
  - eapply bounded_weaken; [exact IH|].
    destruct (Z.eqb (sig_id s) x && acts s); simpl; lia.
  - destruct (Z.eqb (sig_id s) x && acts s); simpl; lia.
Qed.

Lemma execute_marks_of_acts g w x :
  exists new,
    w_log (snd (execute_pending_signals g w)) = new ++ w_log w /\
    w_db (snd (execute_pending_signals g w)) = replay_marks new (w_db w) /\
    (count_ev (is_mark_of x) new <=
     length (filter (fun s => Z.eqb (sig_id s) x && acts s)
               (get_unexecuted_signals (w_db w))))%nat.
Proof.
  destruct (g_meta g (w_calls w)) as [[d|]|e] eqn:Em.
  - rewrite (execute_unfold g w d Em).
    destruct (process_signals_marks_of_acts g d x (get_unexecuted_signals (w_db w))
                (step_world w EvMeta)) as (new & L & D & C).
    exists (new ++ [EvMeta]). simpl in L, D.
    rewrite L, D, <- app_assoc, replay_marks_app, count_ev_app.
    repeat split; auto. simpl. unfold count_ev at 2. simpl. lia.
  - rewrite (execute_meta_none g w Em). exists [EvMeta].
    repeat split; simpl; auto. unfold count_ev. simpl. lia.
  - rewrite (execute_meta_raise g w e Em). exists [EvMeta].
    repeat split; simpl; auto. unfold count_ev. simpl. lia.
Qed.

Lemma length_filter_none {A} (f : A -> bool) l :
  (forall a, In a l -> f a = false) -> length (filter f l) = 0%nat.
Proof.
  induction l as [|a l IH]; simpl; intros H; [reflexivity|].
  rewrite (H a (or_introl eq_refl)). apply IH. auto.
Qed.

(** X5: a signal whose action is neither ["open"] nor ["close"] is never
    marked: whatever the exchange does, a pass leaves its status as it
    was, so a pending one stays pending and is fetched again by every
    later pass. *)
Theorem other_action_never_marked g w r :
  NoDup (map row_id (w_db w)) -> In r (w_db w) ->
  row_action r <> "open" -> row_action r <> "close" ->
  status_of (row_id r) (w_db (snd (execute_pending_signals g w))) =
  [row_executed r].
Proof.
  intros Hnd Hr Ho Hc.
  destruct (execute_marks_of_acts g w (row_id r)) as (new & _ & D & C).
  rewrite D, replay_status; [apply status_of_nodup; auto|].
  rewrite length_filter_none in C; [lia|].
  intros s Hs. apply get_unexecuted_in in Hs as (r' & Hr' & _ & ->).
  simpl. destruct (Z.eqb_spec (row_id r') (row_id r)) as [E|]; [|reflexivity].
  rewrite (nodup_map_inj row_id _ r' r Hnd Hr' Hr E).
  unfold acts. simpl.
  apply String.eqb_neq in Ho. apply String.eqb_neq in Hc. rewrite Ho, Hc.
  reflexivity.
Qed.

Lemma other_action_never_marked_witness :
  (NoDup (map row_id (w_db (world_of [row_of 1 "open" 0; row_of 2 "reopen" 0]))) /\
   In (row_of 2 "reopen" 0) (w_db (world_of [row_of 1 "open" 0; row_of 2 "reopen" 0])) /\
   row_action (row_of 2 "reopen" 0) <> "open" /\
   row_action (row_of 2 "reopen" 0) <> "close") /\
  status_of 2 (w_db (snd (execute_pending_signals (calm_gateway (btc_at 0) [])
                            (world_of [row_of 1 "open" 0; row_of 2 "reopen" 0])))) =
  [0].
Proof.
  assert (H : NoDup (map row_id (w_db (world_of [row_of 1 "open" 0;
                                                   row_of 2 "reopen" 0])))).
  { simpl. constructor; [simpl; intros [H|H]; [discriminate|exact H]|].
    constructor; [intros []|constructor]. }
  assert (Hin : In (row_of 2 "reopen" 0)
                  (w_db (world_of [row_of 1 "open" 0; row_of 2 "reopen" 0])))
    by (right; left; reflexivity).
  split; [split; [exact H | split; [exact Hin | split; discriminate]]|].
  exact (other_action_never_marked (calm_gateway (btc_at 0) [])
           (world_of [row_of 1 "open" 0; row_of 2 "reopen" 0])
           (row_of 2 "reopen" 0) H Hin ltac:(discriminate) ltac:(discriminate)).
Defined.

(** *** The answer of [update_leverage] *)

Lemma bind_ext {A B} (m1 m2 : M A) (k1 k2 : A -> M B) :
  (forall w, m1 w = m2 w) -> (forall a w, k1 a w = k2 a w) ->
  forall w, bind m1 k1 w = bind m2 k2 w.
Proof.
  intros Hm Hk w. unfold bind. rewrite Hm.
  destruct (m2 w) as [[a|e] w']; auto.
Qed.

Section Leverage.
Variables (g : Gateway) (h1 h2 : nat -> Exc bool).
Hypotheses (H1 : answers (fun _ => True) h1) (H2 : answers (fun _ => True) h2).

Lemma set_leverage_answer_irrelevant l w :
  set_leverage (with_update_leverage g h1) l w =
  set_leverage (with_update_leverage g h2) l w.
Proof.
  unfold set_leverage, bind, gcall, ret. simpl.
  destruct (H1 (w_calls w)) as (b1 & _ & E1).
  destruct (H2 (w_calls w)) as (b2 & _ & E2). rewrite E1, E2. reflexivity.
Qed.

Lemma process_signal_answer_irrelevant d s w :
  process_signal (with_update_leverage g h1) d s w =
  process_signal (with_update_leverage g h2) d s w.
Proof.
  unfold process_signal.
  destruct (String.eqb (sig_action s) "open").
  - unfold handle_open. apply bind_ext;
      [apply set_leverage_answer_irrelevant | intros; reflexivity].
  - reflexivity.
Qed.

Lemma process_signals_answer_irrelevant d sigs : forall w,
  process_signals (with_update_leverage g h1) d sigs w =
  process_signals (with_update_leverage g h2) d sigs w.
Proof.
  induction sigs as [|s sigs IH]; intros w; [reflexivity|].
  simpl. apply bind_ext; [apply process_signal_answer_irrelevant | intros; apply IH].
Qed.

End Leverage.

(** X6: the answer of [update_leverage] is ignored: two exchanges that
    differ only in that endpoint, both answering without raising (status
    ["ok"] or ["err"]), give the same pass: same result, same calls, same
    orders and the same store. *)
Theorem leverage_answer_ignored g h1 h2 w :
  answers (fun _ => True) h1 -> answers (fun _ => True) h2 ->
  execute_pending_signals (with_update_leverage g h1) w =
  execute_pending_signals (with_update_leverage g h2) w.
Proof.
  intros H1 H2. unfold execute_pending_signals.
  apply bind_ext; [reflexivity|]. intros d w1.
  apply bind_ext; [reflexivity|]. intros db w2.
  destruct (get_unexecuted_signals db) as [|s rest]; [reflexivity|].
  apply (process_signals_answer_irrelevant g h1 h2 H1 H2 d (s :: rest)).
Qed.

Lemma leverage_answer_ignored_witness :
  (answers (fun _ => True) (fun _ : nat => Ret true : Exc bool) /\
   answers (fun _ => True) (fun _ : nat => Ret false : Exc bool)) /\
  execute_pending_signals (with_update_leverage (calm_gateway (btc_at 0) [])
                             (fun _ => Ret true)) (world_of [open_row 1]) =
  execute_pending_signals (with_update_leverage (calm_gateway (btc_at 0) [])
                             (fun _ => Ret false)) (world_of [open_row 1]).
Proof.
  assert (A1 : answers (fun _ => True) (fun _ : nat => Ret true : Exc bool))
    by (intros n; exists true; split; [exact I | reflexivity]).
  assert (A2 : answers (fun _ => True) (fun _ : nat => Ret false : Exc bool))
    by (intros n; exists false; split; [exact I | reflexivity]).
  split; [split; [exact A1 | exact A2]|].
  exact (leverage_answer_ignored (calm_gateway (btc_at 0) []) _ _
           (world_of [open_row 1]) A1 A2).
Defined.

(** *** Orders and modifications of a chase *)

Ltac bnd_arith2 :=
  cbv beta iota delta [is_poll is_mark is_order is_mark_of stray_mark stray_order
                       stray_order_px stray_modify signal_status_of Q_syn_eqb];
  rewrite ?Z.eqb_refl, ?Pos.eqb_refl, ?Bool.eqb_reflx;
  bnd_arith.

Ltac bnd2 :=
  repeat (cbv beta zeta;
    match goal with
    | |- bounded _ _ (bind (match ?x with _ => _ end) _) => destruct x
    | |- bounded _ _ (bind _ _) =>
        eapply bounded_bind; [solve [eauto with bnd] | intros ? | bnd_arith2]
    | |- bounded _ _ (match ?x with _ => _ end) => destruct x
    | |- bounded _ _ _ =>
        eapply bounded_weaken; [solve [eauto with bnd] | bnd_arith2]
    end).

Lemma poll_loop_no_order g side size ro mr ss oid old_pos n attempt p
    (f : event -> bool) :
  (forall ev, f ev = true -> is_order ev = true) ->
  bounded f 0 (poll_loop g side size ro mr ss oid old_pos n attempt p).
Proof.
  intros Hf. eapply bounded_mono; [exact Hf|].
  eapply bounded_weaken; [apply (poll_loop_bounded g side size ro mr ss is_order 0);
                          apply poll_body_no_order | lia].
Qed.

Lemma chase_orders_px g side size p reduce_only max_requotes sleep_seconds :
  bounded (stray_order_px (String.eqb side "long") size p reduce_only) 0
    (place_limit_order_with_chase_openorders g side size p reduce_only
       max_requotes sleep_seconds).
Proof.
  unfold place_limit_order_with_chase_openorders. cbv beta zeta.
  eapply bounded_bind; [apply bounded_get_btc_position | intros old_pos |
                        simpl; lia].
  eapply bounded_bind; [apply bounded_gcall; reflexivity | intros resp | ].
  2:{ bnd_arith2. }
  assert (Hp : forall oid old_pos n attempt q,
    bounded (stray_order_px (String.eqb side "long") size p reduce_only) 0
      (poll_loop g side size reduce_only max_requotes sleep_seconds oid
         old_pos n attempt q)).
  { intros. apply poll_loop_no_order. intros [] H; simpl in *; congruence. }
  destruct (or_err resp); [bnd2|].
  destruct (or_statuses resp) as [|fs rest]; [bnd2|].
  destruct (fs_error fs); [bnd2|]. destruct (fs_filled fs); [bnd2|].
  destruct (fs_resting fs) as [oid|]; [|bnd2].
  eapply bounded_bind; [apply bounded_time_sleep | intros _ | simpl; lia].
  eapply bounded_bind; [apply Hp | intros [q|r] | simpl; lia].
  - bnd2.
  - bnd2.
Qed.

#[local] Hint Resolve chase_orders_px : bnd.

Lemma stray_order_px_false b sz px ro b' sz' px' ro' :
  stray_order_px b sz px ro (EvOrder b' sz' px' ro') = false ->
  b' = b /\ sz' = sz /\ px' = px /\ ro' = ro.
Proof.
  simpl. intros H. apply negb_false_iff in H.
  apply andb_prop in H as [H H4]. apply andb_prop in H as [H H3].
  apply andb_prop in H as [H1 H2].
  apply Bool.eqb_prop in H1, H4. apply Z.eqb_eq in H3. unfold Q_syn_eqb in H2.
  apply andb_prop in H2 as [E1 E2]. apply Z.eqb_eq in E1. apply Pos.eqb_eq in E2.
  destruct sz, sz'; simpl in *; subst. auto.
Qed.

Lemma orders_of_bounded {A} (m : M A) w0 pre L b sz px ro :
  bounded (stray_order_px b sz px ro) 0 m -> w_log w0 = pre ++ L ->
  (forall b' sz' px' ro', ~ In (EvOrder b' sz' px' ro') pre) ->
  exists new, w_log (snd (m w0)) = new ++ L /\
    forall b' sz' px' ro', In (EvOrder b' sz' px' ro') new ->
      b' = b /\ sz' = sz /\ px' = px /\ ro' = ro.
Proof.
  intros Hb Hw Hpre. destruct (Hb w0) as (n & Ln & _ & C).
  exists (n ++ pre). rewrite Ln, Hw, app_assoc. split; [reflexivity|].
  intros b' sz' px' ro' Hin. apply in_app_or in Hin as [Hin|Hin].
  - apply stray_order_px_false.
    apply (count_ev_zero_in _ n); [lia | exact Hin].
  - exfalso. exact (Hpre _ _ _ _ Hin).
Qed.

Lemma handle_open_prefix g d sig w b us mid :
  g_update_leverage g (w_calls w) = Ret b ->
  g_user_state g (S (w_calls w)) = Ret us ->
  g_all_mids g (S (S (w_calls w))) = Ret mid ->
  handle_open g d sig w =
  (match mid with
   | MidAbsent => mark_signal_failed (sig_id sig)
   | MidBad => raise (ValueError "float(btc_mid_str)")
   | MidVal btc_mid =>
     if Qeq_bool btc_mid 0 then raise ZeroDivisionError else
     if Qle_bool (open_trade_size (us_withdrawable us) (sig_leverage sig) btc_mid d) 0
     then mark_signal_failed (sig_id sig)
     else
       resp <- place_limit_order_with_chase_openorders g (sig_side sig)
                 (open_trade_size (us_withdrawable us) (sig_leverage sig) btc_mid d)
                 (round_half_even btc_mid) false 5 2 ;;
       mark (sig_id sig) (signal_status_of resp)
   end)
  (step_world (step_world (step_world w (EvUpdateLeverage (sig_leverage sig)))
                 EvUserState) EvAllMids).
Proof.
  intros Hl Hu Hm. unfold handle_open. cbv zeta.
  rewrite (bind_set_leverage_ret g _ _ w b Hl). cbv beta.
  rewrite (bind_gcall_ret _ _ _ (step_world w (EvUpdateLeverage (sig_leverage sig)))
             us Hu).
  cbv beta.
  rewrite (bind_gcall_ret _ _ _ (step_world (step_world w
             (EvUpdateLeverage (sig_leverage sig))) EvUserState) mid Hm).
  reflexivity.
Qed.

Lemma process_signal_open g d sig :
  sig_action sig = "open" -> process_signal g d sig = handle_open g d sig.
Proof. intros H. unfold process_signal. rewrite H. reflexivity. Qed.

Lemma process_signal_close g d sig :
  sig_action sig = "close" -> process_signal g d sig = handle_close g d sig.
Proof. intros H. unfold process_signal. rewrite H. reflexivity. Qed.

(** X7: every order that the open handler submits is a buy exactly when
    the signal's side is ["long"], has size
    [round(withdrawable * leverage / mid * 0.98, sz_decimals)] from the
    [user_state] and [all_mids] answers it read, limit price
    [int(round(mid))] and [reduce_only = false]. *)
Theorem open_order_shape g d sig w us m :
  sig_action sig = "open" ->
  g_user_state g (S (w_calls w)) = Ret us ->
  g_all_mids g (S (S (w_calls w))) = Ret (MidVal m) ->
  exists new,
    w_log (snd (process_signal g d sig w)) = new ++ w_log w /\
    forall is_buy sz px reduce_only,
      In (EvOrder is_buy sz px reduce_only) new ->
      is_buy = String.eqb (sig_side sig) "long" /\
      sz = open_trade_size (us_withdrawable us) (sig_leverage sig) m d /\
      px = round_half_even m /\
      reduce_only = false.
Proof.
  intros Ha Hu Hm. rewrite (process_signal_open g d sig Ha).
  destruct (g_update_leverage g (w_calls w)) as [b|e] eqn:El.
  - rewrite (handle_open_prefix g d sig w b us (MidVal m) El Hu Hm).
    eapply orders_of_bounded with
      (pre := [EvAllMids; EvUserState; EvUpdateLeverage (sig_leverage sig)]);
      [| reflexivity |].
    + unfold mark_signal_failed. bnd2.
    + intros b' sz' px' ro' [H|[H|[H|[]]]]; discriminate.
  - unfold handle_open. rewrite (bind_set_leverage_raise g _ _ w e El).
    exists [EvUpdateLeverage (sig_leverage sig)]. split; [reflexivity|].
    intros b' sz' px' ro' [H|[]]; discriminate.
Qed.

Lemma open_order_shape_witness :
  (sig_action (open_signal 1 2) = "open" /\
   g_user_state (calm_gateway (btc_at 0) []) (S (w_calls (world_of []))) =
     Ret (btc_at 0) /\
   g_all_mids (calm_gateway (btc_at 0) []) (S (S (w_calls (world_of [])))) =
     Ret (MidVal 5000)) /\
  exists new,
    w_log (snd (process_signal (calm_gateway (btc_at 0) []) 3 (open_signal 1 2)
                  (world_of []))) = new ++ w_log (world_of []) /\
    forall is_buy sz px reduce_only,
      In (EvOrder is_buy sz px reduce_only) new ->
      is_buy = String.eqb (sig_side (open_signal 1 2)) "long" /\
      sz = open_trade_size (us_withdrawable (btc_at 0)) (sig_leverage (open_signal 1 2))
             5000 3 /\
      px = round_half_even 5000 /\
      reduce_only = false.
Proof.
  split; [repeat split; reflexivity|].
  apply (open_order_shape (calm_gateway (btc_at 0) []) 3 (open_signal 1 2)
           (world_of []) (btc_at 0) 5000); reflexivity.
Defined.

(** X8: an open signal whose computed size rounds to [<= 0] (for instance
    with nothing withdrawable) is marked failed (2) after the
    [update_leverage], [user_state] and [all_mids] calls: no order is
    placed. *)
Theorem open_nonpositive_size_fails g d sig w b us m :
  sig_action sig = "open" ->
  g_update_leverage g (w_calls w) = Ret b ->
  g_user_state g (S (w_calls w)) = Ret us ->
  g_all_mids g (S (S (w_calls w))) = Ret (MidVal m) ->
  ~ (m == 0)%Q ->
  (open_trade_size (us_withdrawable us) (sig_leverage sig) m d <= 0)%Q ->
  process_signal g d sig w =
    (Ret tt, {| w_calls := S (S (S (w_calls w)));
                w_db := set_executed (sig_id sig) 2 (w_db w);
                w_log := [EvMark (sig_id sig) 2; EvAllMids; EvUserState;
                          EvUpdateLeverage (sig_leverage sig)] ++ w_log w |}).
Proof.
  intros Ha Hl Hu Hm Hz Hs. rewrite (process_signal_open g d sig Ha).
  rewrite (handle_open_prefix g d sig w b us (MidVal m) Hl Hu Hm). cbv iota.
  destruct (Qeq_bool m 0) eqn:E; [apply Qeq_bool_iff in E; contradiction|].
  apply Qle_bool_iff in Hs. rewrite Hs. reflexivity.
Qed.


Lemma open_nonpositive_size_fails_witness :
  (sig_action (open_signal 1 2) = "open" /\
   g_update_leverage (calm_gateway broke []) 0 = Ret false /\
   g_user_state (calm_gateway broke []) 1 = Ret broke /\
   g_all_mids (calm_gateway broke []) 2 = Ret (MidVal 5000) /\
   ~ (5000 == 0)%Q /\
   (open_trade_size (us_withdrawable broke) (sig_leverage (open_signal 1 2)) 5000 3
      <= 0)%Q) /\
  process_signal (calm_gateway broke []) 3 (open_signal 1 2) (world_of [open_row 1]) =
    (Ret tt, {| w_calls := 3; w_db := set_executed 1 2 [open_row 1];
                w_log := [EvMark 1 2; EvAllMids; EvUserState; EvUpdateLeverage 2] |}).
Proof.
  assert (Hz : ~ (5000 == 0)%Q) by (intros H; discriminate H).
  assert (Hs : (open_trade_size (us_withdrawable broke) (sig_leverage (open_signal 1 2))
                  5000 3 <= 0)%Q) by (vm_compute; discriminate).
  split; [exact (conj eq_refl (conj eq_refl (conj eq_refl (conj eq_refl
                (conj Hz Hs)))))|].
  exact (open_nonpositive_size_fails (calm_gateway broke []) 3 (open_signal 1 2)
           (world_of [open_row 1]) false broke 5000 eq_refl eq_refl eq_refl eq_refl
           Hz Hs).
Defined.

Lemma handle_close_prefix g d sig w us :
  g_user_state g (w_calls w) = Ret us ->
  handle_close g d sig w =
  (if Qeq_bool (btc_szi (us_positions us)) 0
   then mark_signal_executed (sig_id sig)
   else
     mid <- gcall EvAllMids (g_all_mids g) ;;
     match mid with
     | MidAbsent => mark_signal_failed (sig_id sig)
     | MidBad => raise (ValueError "float(btc_mid_str)")
     | MidVal btc_mid =>
       resp <- place_limit_order_with_chase_openorders g
                 (opposite_side (sig_side sig))
                 (py_round (Qabs (btc_szi (us_positions us))) d)
                 (round_half_even btc_mid) true 5 2 ;;
       mark (sig_id sig) (signal_status_of resp)
     end) (step_world w EvUserState).
Proof.
  intros Hu. unfold handle_close. cbv zeta.
  rewrite (bind_gcall_ret _ _ _ w us Hu). reflexivity.
Qed.

(** X9: when [all_mids] has no BTC entry, the signal is marked failed (2)
    and no order is placed: an open signal after the [update_leverage],
    [user_state] and [all_mids] calls, a close signal (with a non-zero
    position) after the [user_state] and [all_mids] calls. *)
Theorem missing_mid_fails g d sig w b us :
  (sig_action sig = "open" ->
   g_update_leverage g (w_calls w) = Ret b ->
   g_user_state g (S (w_calls w)) = Ret us ->
   g_all_mids g (S (S (w_calls w))) = Ret MidAbsent ->
   process_signal g d sig w =
     (Ret tt, {| w_calls := S (S (S (w_calls w)));
                 w_db := set_executed (sig_id sig) 2 (w_db w);
                 w_log := [EvMark (sig_id sig) 2; EvAllMids; EvUserState;
                           EvUpdateLeverage (sig_leverage sig)] ++ w_log w |})) /\
  (sig_action sig = "close" ->
   g_user_state g (w_calls w) = Ret us ->
   ~ (btc_szi (us_positions us) == 0)%Q ->
   g_all_mids g (S (w_calls w)) = Ret MidAbsent ->
   process_signal g d sig w =
     (Ret tt, {| w_calls := S (S (w_calls w));
                 w_db := set_executed (sig_id sig) 2 (w_db w);
                 w_log := [EvMark (sig_id sig) 2; EvAllMids; EvUserState]
                          ++ w_log w |})).
Proof.
  split.
  - intros Ha Hl Hu Hm. rewrite (process_signal_open g d sig Ha).
    rewrite (handle_open_prefix g d sig w b us MidAbsent Hl Hu Hm). reflexivity.
  - intros Ha Hu Hz Hm. rewrite (process_signal_close g d sig Ha).
    rewrite (handle_close_prefix g d sig w us Hu).
    destruct (Qeq_bool (btc_szi (us_positions us)) 0) eqn:E;
      [apply Qeq_bool_iff in E; contradiction|].
    rewrite (bind_gcall_ret _ _ _ (step_world w EvUserState) MidAbsent Hm).
    reflexivity.
Qed.

Lemma missing_mid_fails_witness :
  ((sig_action (open_signal 1 2) = "open" /\
    g_update_leverage (mid_gateway (btc_at 1) MidAbsent) 0 = Ret false /\
    g_user_state (mid_gateway (btc_at 1) MidAbsent) 1 = Ret (btc_at 1) /\
    g_all_mids (mid_gateway (btc_at 1) MidAbsent) 2 = Ret MidAbsent) /\
   process_signal (mid_gateway (btc_at 1) MidAbsent) 3 (open_signal 1 2)
     (world_of [open_row 1]) =
   (Ret tt, {| w_calls := 3; w_db := set_executed 1 2 [open_row 1];
               w_log := [EvMark 1 2; EvAllMids; EvUserState; EvUpdateLeverage 2] |})) /\
  ((sig_action (close_signal 4) = "close" /\
    g_user_state (mid_gateway (btc_at 1) MidAbsent) 0 = Ret (btc_at 1) /\
    ~ (btc_szi (us_positions (btc_at 1)) == 0)%Q /\
    g_all_mids (mid_gateway (btc_at 1) MidAbsent) 1 = Ret MidAbsent) /\
   process_signal (mid_gateway (btc_at 1) MidAbsent) 3 (close_signal 4)
     (world_of [open_row 4]) =
   (Ret tt, {| w_calls := 2; w_db := set_executed 4 2 [open_row 4];
               w_log := [EvMark 4 2; EvAllMids; EvUserState] |})).
Proof.
  assert (Hz : ~ (btc_szi (us_positions (btc_at 1)) == 0)%Q)
    by (intros H; compute in H; discriminate).
  split.
  - split; [exact (conj eq_refl (conj eq_refl (conj eq_refl eq_refl)))|].
    exact (proj1 (missing_mid_fails (mid_gateway (btc_at 1) MidAbsent) 3
             (open_signal 1 2) (world_of [open_row 1]) false (btc_at 1))
             eq_refl eq_refl eq_refl eq_refl).
  - split; [exact (conj eq_refl (conj eq_refl (conj Hz eq_refl)))|].
    exact (proj2 (missing_mid_fails (mid_gateway (btc_at 1) MidAbsent) 3
             (close_signal 4) (world_of [open_row 4]) false (btc_at 1))
             eq_refl eq_refl Hz eq_refl).
Defined.

(** X10: an open signal for which [all_mids] gives a BTC mid of 0 raises
    [ZeroDivisionError] in the size computation, after the
    [update_leverage], [user_state] and [all_mids] calls, with the store
    unchanged: the signal stays pending. *)
Theorem open_zero_mid_raises g d sig w b us m :
  sig_action sig = "open" ->
  g_update_leverage g (w_calls w) = Ret b ->
  g_user_state g (S (w_calls w)) = Ret us ->
  g_all_mids g (S (S (w_calls w))) = Ret (MidVal m) ->
  (m == 0)%Q ->
  process_signal g d sig w =
    (Raise ZeroDivisionError,
     {| w_calls := S (S (S (w_calls w))); w_db := w_db w;
        w_log := [EvAllMids; EvUserState; EvUpdateLeverage (sig_leverage sig)]
                 ++ w_log w |}).
Proof.
  intros Ha Hl Hu Hm Hz. rewrite (process_signal_open g d sig Ha).
  rewrite (handle_open_prefix g d sig w b us (MidVal m) Hl Hu Hm). cbv iota.
  apply Qeq_bool_iff in Hz. rewrite Hz. reflexivity.
Qed.

Lemma open_zero_mid_raises_witness :
  (sig_action (open_signal 1 2) = "open" /\
   g_update_leverage (mid_gateway (btc_at 0) (MidVal 0)) 0 = Ret false /\
   g_user_state (mid_gateway (btc_at 0) (MidVal 0)) 1 = Ret (btc_at 0) /\
   g_all_mids (mid_gateway (btc_at 0) (MidVal 0)) 2 = Ret (MidVal 0) /\
   (0 == 0)%Q) /\
  process_signal (mid_gateway (btc_at 0) (MidVal 0)) 3 (open_signal 1 2)
    (world_of [open_row 1]) =
    (Raise ZeroDivisionError,
     {| w_calls := 3; w_db := [open_row 1];
        w_log := [EvAllMids; EvUserState; EvUpdateLeverage 2] |}).
Proof.
  assert (Hz : (0 == 0)%Q) by reflexivity.
  split; [exact (conj eq_refl (conj eq_refl (conj eq_refl (conj eq_refl Hz))))|].
  exact (open_zero_mid_raises (mid_gateway (btc_at 0) (MidVal 0)) 3 (open_signal 1 2)
           (world_of [open_row 1]) false (btc_at 0) 0 eq_refl eq_refl eq_refl
           eq_refl Hz).
Defined.

Lemma bind_get_btc_position_ret {B} g (k : Q -> M B) w us :
  g_user_state g (w_calls w) = Ret us ->
  bind (get_btc_position g) k w =
  k (btc_szi (us_positions us)) (step_world w EvUserState).
Proof.
  intros H. unfold get_btc_position, bind, gcall, ret. cbv beta.
  rewrite H. reflexivity.
Qed.

Lemma bind_get_btc_position_raise {B} g (k : Q -> M B) w e :
  g_user_state g (w_calls w) = Raise e ->
  bind (get_btc_position g) k w = (Raise e, step_world w EvUserState).
Proof.
  intros H. unfold get_btc_position, bind, gcall, ret. cbv beta.
  rewrite H. reflexivity.
Qed.

Lemma poll_body_modifies g side size ro mr ss oid old_pos attempt p :
  bounded (stray_modify (Some oid) (String.eqb side "long") size ro) 0
    (poll_body g side size ro mr ss oid old_pos attempt p).
Proof. unfold poll_body. bnd2. Qed.

Lemma poll_loop_modifies g side size ro mr ss oid old_pos n : forall attempt p,
  bounded (stray_modify (Some oid) (String.eqb side "long") size ro) 0
    (poll_loop g side size ro mr ss oid old_pos n attempt p).
Proof.
  induction n as [|n IH]; intros attempt p; simpl.
  - apply bounded_ret.
  - eapply bounded_bind; [apply poll_body_modifies | intros [q|r] | lia].
    + apply IH.
    + apply bounded_ret.
Qed.

Lemma stray_modify_false oid b sz ro o b' sz' px' ro' :
  stray_modify oid b sz ro (EvModify o b' sz' px' ro') = false ->
  oid = Some o /\ b' = b /\ sz' = sz /\ ro' = ro.
Proof.
  simpl. intros H. apply negb_false_iff in H.
  apply andb_prop in H as [H H4]. apply andb_prop in H as [H H3].
  apply andb_prop in H as [H1 H2].
  destruct oid as [x|]; [|discriminate]. apply Z.eqb_eq in H1.
  apply Bool.eqb_prop in H2, H4. unfold Q_syn_eqb in H3.
  apply andb_prop in H3 as [E1 E2]. apply Z.eqb_eq in E1. apply Pos.eqb_eq in E2.
  destruct sz, sz'; simpl in *; subst. auto.
Qed.

Lemma modifies_of_bounded {A} (m : M A) w0 pre L oid b sz ro :
  bounded (stray_modify oid b sz ro) 0 m -> w_log w0 = pre ++ L ->
  (forall o b' sz' px' ro', ~ In (EvModify o b' sz' px' ro') pre) ->
  exists new, w_log (snd (m w0)) = new ++ L /\
    forall o b' sz' px' ro', In (EvModify o b' sz' px' ro') new ->
      oid = Some o /\ b' = b /\ sz' = sz /\ ro' = ro.
Proof.
  intros Hb Hw Hpre. destruct (Hb w0) as (n & Ln & _ & C).
  exists (n ++ pre). rewrite Ln, Hw, app_assoc. split; [reflexivity|].
  intros o b' sz' px' ro' Hin. apply in_app_or in Hin as [Hin|Hin].
  - apply stray_modify_false with (px' := px').
    apply (count_ev_zero_in _ n); [lia | exact Hin].
  - exfalso. exact (Hpre _ _ _ _ _ Hin).
Qed.

(** X11: every [modify_order] a chase issues is for the OID of the resting
    acknowledgement of its order, with the side, size and [reduce_only] of
    that order; only the price changes. *)
Theorem chase_modifies_own_order g side size p ro mr ss w resp :
  g_order g (S (w_calls w)) = Ret resp ->
  exists new,
    w_log (snd (place_limit_order_with_chase_openorders g side size p ro mr ss w))
      = new ++ w_log w /\
    forall oid b sz px ro', In (EvModify oid b sz px ro') new ->
      first_oid resp = Some oid /\ b = String.eqb side "long" /\ sz = size /\
      ro' = ro.
Proof.
  intros Ho. unfold place_limit_order_with_chase_openorders. cbv zeta.
  destruct (g_user_state g (w_calls w)) as [us|e] eqn:Eu.
  - rewrite (bind_get_btc_position_ret g _ w us Eu). cbv beta.
    rewrite (bind_gcall_ret _ _ _ (step_world w EvUserState) resp Ho). cbv beta.
    eapply modifies_of_bounded with (pre := [_; EvUserState]);
      [| reflexivity | intros o b' sz' px' ro' [H|[H|[]]]; discriminate].
    unfold first_oid.
    destruct (or_err resp); [bnd2|].
    destruct (or_statuses resp) as [|fs rest]; [bnd2|].
    destruct (fs_error fs); [bnd2|]. destruct (fs_filled fs); [bnd2|].
    destruct (fs_resting fs) as [oid|]; [|bnd2].
    eapply bounded_bind; [apply bounded_time_sleep | intros _ | simpl; lia].
    eapply bounded_bind;
      [apply poll_loop_modifies | intros [q|r] | simpl; lia].
    + bnd2.
    + bnd2.
  - rewrite (bind_get_btc_position_raise g _ w e Eu).
    exists [EvUserState]. split; [reflexivity|].
    intros oid b sz px ro' [H|[]]; discriminate.
Qed.

Lemma chase_modifies_own_order_witness :
  g_order (resting_gateway 7 (btc_at 0) [Some 7]) (S (w_calls (world_of []))) =
    Ret (order_resting 7) /\
  exists new,
    w_log (snd (place_limit_order_with_chase_openorders
                  (resting_gateway 7 (btc_at 0) [Some 7]) "long" (1 # 100) 50000
                  false 5 2 (world_of []))) = new ++ w_log (world_of []) /\
    forall oid b sz px ro', In (EvModify oid b sz px ro') new ->
      first_oid (order_resting 7) = Some oid /\ b = String.eqb "long" "long" /\
      sz = (1 # 100)%Q /\ ro' = false.
Proof.
  split; [reflexivity|].
  exact (chase_modifies_own_order (resting_gateway 7 (btc_at 0) [Some 7]) "long"
           (1 # 100) 50000 false 5 2 (world_of []) (order_resting 7) eq_refl).
Defined.

(** X12: with [max_requotes < 0] the polling loop runs no iteration: after
    a resting acknowledgement the chase sleeps, reads the position again
    and settles on the position check alone, without polling
    [open_orders] or [user_fills] and without a [modify_order]. *)
Theorem negative_requotes_skip_polling g side size p ro mr ss w us resp :
  mr < 0 ->
  g_user_state g (w_calls w) = Ret us ->
  g_order g (S (w_calls w)) = Ret resp ->
  ack_rests resp = true ->
  place_limit_order_with_chase_openorders g side size p ro mr ss w =
  (match g_user_state g (S (S (w_calls w))) with
   | Ret us' =>
       Ret (if check_position_change (btc_szi (us_positions us))
                 (btc_szi (us_positions us')) side size
            then chase_ok "filled-final-fallback"
            else chase_err "error: chase loop ended, no fill detected")
   | Raise e => Raise e
   end,
   {| w_calls := S (S (S (w_calls w))); w_db := w_db w;
      w_log := [EvUserState; EvSleep 2; EvOrder (String.eqb side "long") size p ro;
                EvUserState] ++ w_log w |}).
Proof.
  intros Hmr Hu Ho Ha. unfold place_limit_order_with_chase_openorders. cbv zeta.
  rewrite (bind_get_btc_position_ret g _ w us Hu). cbv beta.
  rewrite (bind_gcall_ret _ _ _ (step_world w EvUserState) resp Ho). cbv beta.
  unfold ack_rests in Ha.
  destruct (or_err resp); [discriminate|].
  destruct (or_statuses resp) as [|fs rest]; [discriminate|].
  destruct (fs_error fs); [discriminate|]. destruct (fs_filled fs); [discriminate|].
  destruct (fs_resting fs) as [oid|]; [|discriminate].
  replace (Z.to_nat (mr + 1)) with 0%nat by lia.
  destruct (g_user_state g (S (S (w_calls w)))) as [us'|e] eqn:E2;
    cbv [bind time_sleep emit poll_loop get_btc_position gcall ret]; cbn;
    rewrite E2; [destruct (check_position_change _ _ side size)|]; reflexivity.
Qed.

Lemma negative_requotes_skip_polling_witness :
  (-1 < 0 /\
   g_user_state (resting_gateway 7 (btc_at 0) []) (w_calls (world_of [])) =
     Ret (btc_at 0) /\
   g_order (resting_gateway 7 (btc_at 0) []) (S (w_calls (world_of []))) =
     Ret (order_resting 7) /\
   ack_rests (order_resting 7) = true) /\
  place_limit_order_with_chase_openorders (resting_gateway 7 (btc_at 0) [])
    "long" (1 # 100) 50000 false (-1) 2 (world_of []) =
  (Ret (chase_err "error: chase loop ended, no fill detected"),
   {| w_calls := 3; w_db := [];
      w_log := [EvUserState; EvSleep 2; EvOrder true (1 # 100) 50000 false;
                EvUserState] |}).
Proof.
  split; [split; [reflexivity | split; [reflexivity | split; reflexivity]]|].
  exact (negative_requotes_skip_polling (resting_gateway 7 (btc_at 0) [])
           "long" (1 # 100) 50000 false (-1) 2 (world_of []) (btc_at 0)
           (order_resting 7) eq_refl eq_refl eq_refl eq_refl).
Defined.

(** X13: the position check never succeeds for a trade size of 0 or less,
    whatever the positions and the side: the tolerance [trade_size * 0.1]
    is then at most 0, and no absolute value is below it. *)
Theorem check_position_change_nonpositive old_pos new_pos side trade_size :
  (trade_size <= 0)%Q ->
  check_position_change old_pos new_pos side trade_size = false.
Proof.
  intros H. unfold check_position_change. cbv zeta.
  apply negb_false_iff, Qle_bool_iff.
  apply Qle_trans with 0%Q; [lra | apply Qabs_nonneg].
Qed.

Lemma check_position_change_nonpositive_witness :
  (0 <= 0)%Q /\ check_position_change 1 1 "long" 0 = false.
Proof.
  assert (H : (0 <= 0)%Q) by apply Qle_refl.
  split; [exact H|].
  exact (check_position_change_nonpositive 1 1 "long" 0 H).
Defined.

(** X14: a chase submits at most one order placement; every later price
    change goes through [modify_order]. *)
Theorem chase_single_order g side size p ro mr ss :
  bounded is_order 1
    (place_limit_order_with_chase_openorders g side size p ro mr ss).
Proof.
  unfold place_limit_order_with_chase_openorders. cbv beta zeta.
  eapply bounded_bind; [apply bounded_get_btc_position | intros old_pos |
                        simpl; lia].
  eapply bounded_bind; [apply bounded_gcall; reflexivity | intros resp |
                        simpl; lia].
  destruct (or_err resp); [bnd2|].
  destruct (or_statuses resp) as [|fs rest]; [bnd2|].
  destruct (fs_error fs); [bnd2|]. destruct (fs_filled fs); [bnd2|].
  destruct (fs_resting fs) as [oid|]; [|bnd2].
  eapply bounded_bind; [apply bounded_time_sleep | intros _ | simpl; lia].
  eapply bounded_bind; [apply poll_loop_no_order; auto | intros [q|r] | simpl; lia].
  - bnd2.
  - bnd2.
Qed.

(** ** Decision making *)

Lemma round_half_even_floor x :
  Qfloor x <= round_half_even x <= Qfloor x + 1.
Proof.
  unfold round_half_even. cbv zeta.
  destruct (Qlt_le_dec _ _); [lia|].
  destruct (Qeq_bool _ _); [destruct (Z.even _)|]; lia.
Qed.

Lemma round_half_even_mono x y :
  (x <= y)%Q -> round_half_even x <= round_half_even y.
Proof.
  intros H. pose proof (Qfloor_resp_le x y H) as Hf.
  destruct (Z.eq_dec (Qfloor x) (Qfloor y)) as [E|E].
  - unfold round_half_even. cbv zeta. rewrite <- E.
    assert (Hr : (x - inject_Z (Qfloor x) <= y - inject_Z (Qfloor x))%Q) by lra.
    set (rx := (x - inject_Z (Qfloor x))%Q) in *.
    set (ry := (y - inject_Z (Qfloor x))%Q) in *.
    destruct (Qlt_le_dec rx (1#2)) as [A|A];
      [destruct (Qlt_le_dec ry (1#2)); [lia|];
       destruct (Qeq_bool ry (1#2)); [destruct (Z.even _)|]; lia|].
    destruct (Qlt_le_dec ry (1#2)) as [B|B]; [lra|].
    destruct (Qeq_bool rx (1#2)) eqn:Ex, (Qeq_bool ry (1#2)) eqn:Ey;
      try (destruct (Z.even _)); try lia.
    apply Qeq_bool_iff in Ey. apply Qeq_bool_neq in Ex. exfalso. apply Ex. lra.
  - pose proof (round_half_even_floor x). pose proof (round_half_even_floor y).
    lia.
Qed.

Lemma py_min_le_r a b : (py_min a b <= b)%Q.
Proof. unfold py_min. destruct (Qlt_le_dec b a); lra. Qed.

Lemma py_min_le_l a b : (py_min a b <= a)%Q.
Proof. unfold py_min. destruct (Qlt_le_dec b a); lra. Qed.

Lemma py_max_ge_l a b : (a <= py_max a b)%Q.
Proof. unfold py_max. destruct (Qlt_le_dec a b); lra. Qed.

Lemma py_max_le a b c : (a <= c)%Q -> (b <= c)%Q -> (py_max a b <= c)%Q.
Proof. unfold py_max. destruct (Qlt_le_dec a b); lra. Qed.

Lemma py_min_mono a a' b : (a <= a')%Q -> (py_min a b <= py_min a' b)%Q.
Proof.
  unfold py_min. destruct (Qlt_le_dec b a), (Qlt_le_dec b a'); lra.
Qed.

Lemma py_max_mono a b b' : (b <= b')%Q -> (py_max a b <= py_max a b')%Q.
Proof.
  unfold py_max. destruct (Qlt_le_dec a b), (Qlt_le_dec a b'); lra.
Qed.

Lemma Qpower_nat_mono a b n :
  (0 <= a <= b)%Q -> (a ^ Z.of_nat n <= b ^ Z.of_nat n)%Q.
Proof.
  intros H. induction n as [|n IH]; [apply Qle_refl|].
  rewrite Nat2Z.inj_succ. unfold Z.succ.
  rewrite (Qpower_plus' a (Z.of_nat n) 1) by lia.
  rewrite (Qpower_plus' b (Z.of_nat n) 1) by lia.
  apply Qmult_le_compat_nonneg; [split; [apply Qpower_0_le; lra | exact IH]|].
  simpl. lra.
Qed.

(** X15: the internal bar strength is always in [0, 1], whatever the
    candle (also when [high < low], which the function does not check). *)
Theorem calculate_ibs_bounds close low high :
  (0 <= calculate_ibs close low high <= 1)%Q.
Proof.
  unfold calculate_ibs. destruct (Qeq_bool high low); [lra|]. cbv zeta.
  split; [apply py_max_ge_l|].
  apply py_max_le; [lra | apply py_min_le_r].
Qed.

(** X16: on the IBS values [calculate_ibs] produces, [0 <= ibs <= 1]
    (where [(1 - ibs) ** 7.0] cannot overflow), the leverage is an integer
    between 1 and [LEVERAGE_BASE] = 5. *)
Theorem determine_leverage_bounds ibs :
  (0 <= ibs <= 1)%Q ->
  1 <= determine_leverage ibs <= 5.
Proof.
  intros _.
  unfold determine_leverage. cbv zeta.
  set (v := py_max 1 (py_min (LEVERAGE_BASE * (1 - ibs) ^ LEVERAGE_EXPONENT)
                             LEVERAGE_BASE)).
  assert (H1 : (1 <= v)%Q) by apply py_max_ge_l.
  assert (H5 : (v <= 5)%Q).
  { apply py_max_le; [unfold Qle; simpl; lia | apply py_min_le_r]. }
  split.
  - change 1 with (round_half_even 1). apply round_half_even_mono, H1.
  - change 5 with (round_half_even 5). apply round_half_even_mono, H5.
Qed.

(** X17: on IBS values up to 1 the leverage never increases with the IBS:
    a weaker close in the candle's range gives at least as much leverage. *)
Theorem determine_leverage_antitone ibs1 ibs2 :
  (ibs1 <= ibs2)%Q -> (ibs2 <= 1)%Q ->
  determine_leverage ibs2 <= determine_leverage ibs1.
Proof.
  intros H12 H2. unfold determine_leverage. cbv zeta.
  apply round_half_even_mono, py_max_mono, py_min_mono.
  unfold LEVERAGE_BASE, LEVERAGE_EXPONENT.
  change 7 with (Z.of_nat 7).
  apply Qmult_le_compat_nonneg; [lra|].
  split; [apply Qpower_0_le; lra|].
  apply Qpower_nat_mono. lra.
Qed.

Lemma determine_leverage_bounds_witness :
  (0 <= 1 # 10 <= 1)%Q /\ 1 <= determine_leverage (1 # 10) <= 5.
Proof.
  assert (H : (0 <= 1 # 10 <= 1)%Q) by (split; unfold Qle; simpl; lia).
  split; [exact H|].
  exact (determine_leverage_bounds (1 # 10) H).
Defined.

Lemma determine_leverage_antitone_witness :
  ((0 <= 1 # 10)%Q /\ (1 # 10 <= 1)%Q) /\
  determine_leverage (1 # 10) <= determine_leverage 0.
Proof.
  assert (H1 : (0 <= 1 # 10)%Q) by (unfold Qle; simpl; lia).
  assert (H2 : (1 # 10 <= 1)%Q) by (unfold Qle; simpl; lia).
  split; [exact (conj H1 H2)|].
  exact (determine_leverage_antitone 0 (1 # 10) H1 H2).
Defined.

Lemma insert_by_id_app_last x r l :
  row_id x < row_id r ->
  insert_by_id x (l ++ [r]) = insert_by_id x l ++ [r].
Proof.
  intros H. induction l as [|y l IH]; simpl.
  - destruct (row_id x <=? row_id r) eqn:E; [reflexivity | lia].
  - destruct (row_id x <=? row_id y); [reflexivity|]. rewrite IH. reflexivity.
Qed.

Lemma sort_by_id_app_last l r :
  (forall x, In x l -> row_id x < row_id r) ->
  sort_by_id (l ++ [r]) = sort_by_id l ++ [r].
Proof.
  unfold sort_by_id. rewrite fold_right_app. simpl.
  induction l as [|x l IH]; intros H; [reflexivity|]. simpl.
  rewrite IH by (intros; apply H; right; assumption).
  apply insert_by_id_app_last, H. left. reflexivity.
Qed.

Lemma max_id_ge rows r : In r rows -> sr_id r <= max_id rows.
Proof.
  induction rows as [|x rows IH]; simpl; [easy|].
  intros [<-|Hin]; [lia|]. specialize (IH Hin). lia.
Qed.

(** X18: a signal inserted into the table is fetched by the engine after
    every signal already pending, with the next id, its action, side and
    price, and the leverage of the dict (1 when the key is absent or 0). *)
Theorem insert_then_fetch t signal t' :
  insert_trade_signal t signal = Some t' ->
  get_unexecuted_signals (map to_row (t_rows t')) =
  get_unexecuted_signals (map to_row (t_rows t)) ++
  [{| sig_id := t_seq t'; sig_action := ts_action signal;
      sig_side := ts_side signal; sig_price := ts_price signal;
      sig_leverage := let l := match ts_leverage signal with
                               | Some l => l
                               | None => 1
                               end in
                      if l =? 0 then 1 else l |}].
Proof.
  unfold insert_trade_signal. cbv zeta.
  destruct (Z.max (t_seq t) (max_id (t_rows t)) <? SQLITE_MAX_ROWID);
    [|discriminate].
  intros E. injection E as <-. cbn [t_rows t_seq].
  unfold get_unexecuted_signals. rewrite map_app, filter_app. simpl.
  rewrite sort_by_id_app_last, map_app; [reflexivity|].
  intros x Hx. apply filter_In in Hx as [Hx _].
  apply in_map_iff in Hx as (r & <- & Hr). simpl.
  pose proof (max_id_ge _ _ Hr). lia.
Qed.

Lemma insert_then_fetch_witness :
  insert_trade_signal {| t_seq := 4; t_rows := [] |}
    (format_trade_signal "open" "2024-01-01T00:00:00" SYMBOL "long" 42000 (Some 3))
  = Some {| t_seq := 5;
            t_rows := [{| sr_id := 5; sr_timestamp := "2024-01-01T00:00:00";
                          sr_action := "open"; sr_symbol := SYMBOL;
                          sr_side := "long"; sr_price := 42000;
                          sr_leverage := Some 3; sr_executed := 0 |}] |} /\
  get_unexecuted_signals
    (map to_row [{| sr_id := 5; sr_timestamp := "2024-01-01T00:00:00";
                    sr_action := "open"; sr_symbol := SYMBOL;
                    sr_side := "long"; sr_price := 42000;
                    sr_leverage := Some 3; sr_executed := 0 |}]) =
  get_unexecuted_signals (map to_row []) ++
  [{| sig_id := 5; sig_action := "open"; sig_side := "long"; sig_price := 42000;
      sig_leverage := 3 |}].
Proof.
  split; [reflexivity|].
  exact (insert_then_fetch {| t_seq := 4; t_rows := [] |}
           (format_trade_signal "open" "2024-01-01T00:00:00" SYMBOL "long" 42000
              (Some 3)) _ eq_refl).
Defined.

(** X19: after [mark_open_trade_executed t symbol], [has_active_trade]
    still holds exactly when a pending open of another symbol exists:
    the update is per symbol while the check counts every symbol. *)
Theorem mark_open_then_active t symbol :
  has_active_trade (mark_open_trade_executed t symbol) = true <->
  exists r, In r (t_rows t) /\ pending_open r = true /\ sr_symbol r <> symbol.
Proof.
  unfold has_active_trade, mark_open_trade_executed. cbn [t_rows].
  rewrite Z.ltb_lt. split.
  - intros H. destruct (filter pending_open _) as [|r' l] eqn:E;
      [simpl in H; lia|].
    assert (Hin : In r' (filter pending_open
              (map (fun r => if pending_open r && String.eqb (sr_symbol r) symbol
                             then _ else r) (t_rows t)))) by (rewrite E; left; auto).
    apply filter_In in Hin as [Hin Hp]. apply in_map_iff in Hin as (r & Er & Hr).
    exists r. destruct (pending_open r && String.eqb (sr_symbol r) symbol) eqn:Ep.
    + subst r'. unfold pending_open in Hp. simpl in Hp.
      rewrite andb_false_r in Hp. discriminate.
    + subst r'. split; [exact Hr|]. split; [exact Hp|].
      rewrite Hp in Ep. simpl in Ep. apply String.eqb_neq, Ep.
  - intros (r & Hr & Hp & Hs).
    assert (Hin : In r (filter pending_open
              (map (fun r => if pending_open r && String.eqb (sr_symbol r) symbol
                             then {| sr_id := sr_id r; sr_timestamp := sr_timestamp r;
                                     sr_action := sr_action r; sr_symbol := sr_symbol r;
                                     sr_side := sr_side r; sr_price := sr_price r;
                                     sr_leverage := sr_leverage r; sr_executed := 1 |}
                             else r) (t_rows t)))).
    { apply filter_In. split; [|exact Hp]. apply in_map_iff. exists r.
      split; [|exact Hr]. apply String.eqb_neq in Hs. rewrite Hs, andb_false_r.
      reflexivity. }
    destruct (filter pending_open _); [destruct Hin|]. simpl. lia.
Qed.

Lemma first_by_id_spec l :
  match first_by_id l with
  | Some c => In c l /\ forall c', In c' l -> c_id c <= c_id c'
  | None => l = []
  end.
Proof.
  induction l as [|c l IH]; simpl; [reflexivity|].
  destruct (first_by_id l) as [c'|].
  - destruct IH as [Hin Hmin]. destruct (c_id c' <? c_id c) eqn:E.
    + apply Z.ltb_lt in E. split; [right; exact Hin|].
      intros x [<-|Hx]; [lia | apply Hmin, Hx].
    + apply Z.ltb_ge in E. split; [left; reflexivity|].
      intros x [<-|Hx]; [lia|]. specialize (Hmin x Hx). lia.
  - subst l. split; [left; reflexivity|]. intros x [<-|[]]. lia.
Qed.

Lemma latest_candle_least candles last :
  let above c := match last with
                 | Some n => (n =? 0) || (n <? c_id c)
                 | None => true
                 end in
  match get_latest_hourly_candle candles last with
  | Some c => In c candles /\ above c = true /\
              forall c', In c' candles -> above c' = true -> c_id c <= c_id c'
  | None => forall c', In c' candles -> above c' = false
  end.
Proof.
  cbv zeta. unfold get_latest_hourly_candle.
  destruct last as [n|]; [destruct (n =? 0) eqn:En|]; simpl.
  - pose proof (first_by_id_spec candles) as H.
    destruct (first_by_id candles) as [c|].
    + destruct H as [Hin Hmin]. split; [exact Hin|]. split; [reflexivity|].
      intros c' Hc' _. apply Hmin, Hc'.
    + subst candles. intros c' [].
  - pose proof (first_by_id_spec (filter (fun c => n <? c_id c) candles)) as H.
    destruct (first_by_id _) as [c|].
    + destruct H as [Hin Hmin]. apply filter_In in Hin as [Hin Ha].
      split; [exact Hin|]. split; [exact Ha|].
      intros c' Hc' Ha'. apply Hmin, filter_In. auto.
    + intros c' Hc'. destruct (n <? c_id c') eqn:E; [|reflexivity].
      assert (Hx : In c' (filter (fun c => n <? c_id c) candles))
        by (apply filter_In; auto).
      rewrite H in Hx. destruct Hx.
  - pose proof (first_by_id_spec candles) as H.
    destruct (first_by_id candles) as [c|].
    + destruct H as [Hin Hmin]. split; [exact Hin|]. split; [reflexivity|].
      intros c' Hc' _. apply Hmin, Hc'.
    + subst candles. intros c' [].
Qed.

(** X20: the candle fetched is the one of least id among those above the
    last processed id, or among all candles when that id is [None] or 0
    (both falsy); [None] exactly when no candle qualifies. *)
Theorem get_latest_hourly_candle_spec candles last :
  let above c := match last with
                 | Some n => (n =? 0) || (n <? c_id c)
                 | None => true
                 end in
  match get_latest_hourly_candle candles last with
  | Some c => In c candles /\ above c = true /\
              forall c', In c' candles -> above c' = true -> c_id c <= c_id c'
  | None => forall c', In c' candles -> above c' = false
  end.
Proof. exact (latest_candle_least candles last). Qed.

Lemma process_candle_stuck fromisoformat engine candle tl t :
  trade_active tl = false -> has_active_trade t = true ->
  process_candle fromisoformat engine candle tl t = (tl, t).
Proof.
  intros Ha Hb. unfold process_candle. rewrite Ha, Hb.
  destruct (c_timestamp candle) as [ts|]; [|reflexivity].
  destruct (String.eqb ts ""); [reflexivity|].
  destruct (fromisoformat ts); [|reflexivity].
  destruct (c_open candle), (c_high candle), (c_low candle), (c_close candle);
    try reflexivity.
  destruct (Qlt_le_dec _ _); reflexivity.
Qed.

(** X21: once no trade is active in memory while the table holds a pending
    open signal, every later iteration of the loop is a no-op: the table
    never changes, the engine is never run again and the in-memory trade
    stays inactive; only [last_processed_id] advances. *)
Theorem stuck_pending_open fromisoformat engine snaps tl t :
  trade_active tl = false -> has_active_trade t = true ->
  let '(_, (tl', t')) := loop_run fromisoformat engine snaps tl t in
  t' = t /\ trade_active tl' = false /\ entry_price tl' = entry_price tl /\
  tl_leverage tl' = tl_leverage tl /\ entry_time tl' = entry_time tl.
Proof.
  intros Ha Hb. revert tl Ha. induction snaps as [|candles rest IH]; intros tl Ha.
  - simpl. auto.
  - cbn [loop_run]. unfold loop_step.
    destruct (get_latest_hourly_candle candles (last_processed_id tl)) as [c|].
    + rewrite (process_candle_stuck fromisoformat engine c tl t Ha Hb).
      specialize (IH {| trade_active := trade_active tl;
                        entry_price := entry_price tl;
                        tl_leverage := tl_leverage tl;
                        entry_time := entry_time tl;
                        last_processed_id := Some (c_id c) |} Ha).
      destruct (loop_run fromisoformat engine rest _ t) as [ids [tl' t']].
      exact IH.
    + specialize (IH tl Ha).
      destruct (loop_run fromisoformat engine rest tl t) as [ids [tl' t']].
      exact IH.
Qed.

Lemma stuck_pending_open_witness :
  (trade_active initial_logic = false /\ has_active_trade stuck_table = true) /\
  let '(_, (tl', t')) :=
    loop_run (fun _ => Some {| dt_micros := 0; dt_aware := false |})
      (table_engine (calm_gateway (btc_at 0) [])) [[hour_candle 1 101]; [hour_candle 2 100]]
      initial_logic stuck_table in
  t' = stuck_table /\ trade_active tl' = false /\
  entry_price tl' = entry_price initial_logic /\
  tl_leverage tl' = tl_leverage initial_logic /\
  entry_time tl' = entry_time initial_logic.
Proof.
  split; [split; reflexivity|].
  exact (stuck_pending_open (fun _ => Some {| dt_micros := 0; dt_aware := false |})
           (table_engine (calm_gateway (btc_at 0) [])) [[hour_candle 1 101]; [hour_candle 2 100]]
           initial_logic stuck_table eq_refl eq_refl).
Defined.

(** X22: when an open signal is inserted and the engine then raises (here:
    the exchange's meta data fails or lists no BTC), the exception is
    swallowed by [process_candle]: the in-memory trade stays inactive while
    the table now holds a pending open: the state in which X21 shows every
    later candle to be a no-op. *)
Theorem open_engine_error_sticks fromisoformat g candle tl t ts time o h l c :
  c_timestamp candle = Some ts -> ts <> "" -> fromisoformat ts = Some time ->
  c_open candle = Some o -> c_high candle = Some h -> c_low candle = Some l ->
  c_close candle = Some c ->
  (l <= h)%Q -> (calculate_ibs c l h < 1 # 5)%Q ->
  trade_active tl = false -> has_active_trade t = false ->
  Z.max (t_seq t) (max_id (t_rows t)) < SQLITE_MAX_ROWID ->
  (forall d, g_meta g 0 <> Ret (Some d)) ->
  let '(tl', t') := process_candle fromisoformat (table_engine g) candle tl t in
  trade_active tl' = false /\ has_active_trade t' = true.
Proof.
  intros Hts Hne Hiso Ho Hh Hl Hc Hlh Hibs Ha Hb Hseq Hm.
  unfold process_candle. rewrite Hts, (proj2 (String.eqb_neq ts "") Hne), Hiso,
    Ho, Hh, Hl, Hc, Ha, Hb.
  destruct (Qlt_le_dec h l); [lra|]. cbn [negb].
  destruct (Qlt_le_dec (calculate_ibs c l h) (1 # 5)); [|lra].
  unfold insert_trade_signal. cbv zeta.
  rewrite (proj2 (Z.ltb_lt _ _) Hseq).
  unfold table_engine.
  destruct (g_meta g 0) as [[d|]|e] eqn:Em; [exfalso; exact (Hm d eq_refl)| |].
  - erewrite execute_meta_none; [|exact Em]. cbn.
    split; [reflexivity|]. unfold has_active_trade. cbn [t_rows].
    rewrite filter_app, length_app. simpl. apply Z.ltb_lt. lia.
  - erewrite execute_meta_raise; [|exact Em]. cbn.
    split; [reflexivity|]. unfold has_active_trade. cbn [t_rows].
    rewrite filter_app, length_app. simpl. apply Z.ltb_lt. lia.
Qed.

Lemma open_engine_error_sticks_witness :
  (c_timestamp (hour_candle 1 101) = Some "2024-01-01T01:00:00" /\
   "2024-01-01T01:00:00" <> "" /\
   Some {| dt_micros := 0; dt_aware := false |} =
     Some {| dt_micros := 0; dt_aware := false |} /\
   c_open (hour_candle 1 101) = Some 100%Q /\
   c_high (hour_candle 1 101) = Some 110%Q /\
   c_low (hour_candle 1 101) = Some 100%Q /\
   c_close (hour_candle 1 101) = Some 101%Q /\
   (100 <= 110)%Q /\ (calculate_ibs 101 100 110 < 1 # 5)%Q /\
   trade_active initial_logic = false /\
   has_active_trade {| t_seq := 0; t_rows := [] |} = false /\
   Z.max 0 (max_id []) < SQLITE_MAX_ROWID /\
   (forall d, g_meta no_btc_gateway 0 <> Ret (Some d))) /\
  let '(tl', t') := process_candle
                      (fun _ => Some {| dt_micros := 0; dt_aware := false |})
                      (table_engine no_btc_gateway) (hour_candle 1 101)
                      initial_logic {| t_seq := 0; t_rows := [] |} in
  trade_active tl' = false /\ has_active_trade t' = true.
Proof.
  assert (Hne : "2024-01-01T01:00:00" <> "") by discriminate.
  assert (Hlh : (100 <= 110)%Q) by (unfold Qle; simpl; lia).
  assert (Hibs : (calculate_ibs 101 100 110 < 1 # 5)%Q) by reflexivity.
  assert (Hseq : Z.max 0 (max_id []) < SQLITE_MAX_ROWID) by reflexivity.
  assert (Hm : forall d, g_meta no_btc_gateway 0 <> Ret (Some d)) by discriminate.
  split.
  - repeat (split; [first [reflexivity | assumption]|]). exact Hm.
  - exact (open_engine_error_sticks
             (fun _ => Some {| dt_micros := 0; dt_aware := false |})
             no_btc_gateway (hour_candle 1 101) initial_logic
             {| t_seq := 0; t_rows := [] |} "2024-01-01T01:00:00"
             {| dt_micros := 0; dt_aware := false |} 100 110 100 101
             eq_refl Hne eq_refl eq_refl eq_refl eq_refl eq_refl Hlh Hibs
             eq_refl eq_refl Hseq Hm).
Defined.

(** X23: while a trade is active, a candle changes nothing unless its
    timestamp is at least one hour after the entry time; then the close
    signal is inserted, the symbol's pending opens are marked executed and
    the engine runs on that table. *)
Theorem active_trade_waits_an_hour fromisoformat engine candle tl t :
  trade_active tl = true ->
  process_candle fromisoformat engine candle tl t = (tl, t) \/
  exists ts time et elapsed close t1,
    c_timestamp candle = Some ts /\ fromisoformat ts = Some time /\
    entry_time tl = Some et /\ dt_sub time et = Some elapsed /\
    ONE_HOUR <= elapsed /\ c_close candle = Some close /\
    insert_trade_signal t (format_trade_signal "close" ts SYMBOL "long" close None)
      = Some t1 /\
    snd (process_candle fromisoformat engine candle tl t) =
      snd (engine (mark_open_trade_executed t1 SYMBOL)).
Proof.
  intros Ha. unfold process_candle. rewrite Ha. cbn [negb].
  destruct (c_timestamp candle) as [ts|] eqn:E1; [|left; reflexivity].
  destruct (String.eqb ts ""); [left; reflexivity|].
  destruct (fromisoformat ts) as [time|] eqn:E2; [|left; reflexivity].
  destruct (c_open candle); [|left; reflexivity].
  destruct (c_high candle) as [h|]; [|left; reflexivity].
  destruct (c_low candle) as [l|]; [|left; reflexivity].
  destruct (c_close candle) as [c|] eqn:E3; [|left; reflexivity].
  destruct (Qlt_le_dec h l); [left; reflexivity|].
  destruct (entry_time tl) as [et|] eqn:E4; [|left; reflexivity].
  destruct (dt_sub time et) as [d|] eqn:E5; [|left; reflexivity].
  destruct (ONE_HOUR <=? d) eqn:E6; [|left; reflexivity].
  destruct (insert_trade_signal t _) as [t1|] eqn:E7; [|left; reflexivity].
  right. exists ts, time, et, d, c, t1.
  repeat (split; [first [reflexivity | assumption | apply Z.leb_le; assumption]|]).
  destruct (engine _) as [[u|e] t3]; reflexivity.
Qed.

Lemma active_trade_waits_an_hour_witness :
  trade_active {| trade_active := true; entry_price := 100; tl_leverage := 3;
                  entry_time := Some {| dt_micros := 0; dt_aware := false |};
                  last_processed_id := Some 1 |} = true /\
  (process_candle (fun _ => Some {| dt_micros := 60; dt_aware := false |})
     (table_engine (calm_gateway (btc_at 0) [])) (hour_candle 2 101)
     {| trade_active := true; entry_price := 100; tl_leverage := 3;
        entry_time := Some {| dt_micros := 0; dt_aware := false |};
        last_processed_id := Some 1 |} stuck_table =
   ({| trade_active := true; entry_price := 100; tl_leverage := 3;
       entry_time := Some {| dt_micros := 0; dt_aware := false |};
       last_processed_id := Some 1 |}, stuck_table) \/
   exists ts time et elapsed close t1,
     c_timestamp (hour_candle 2 101) = Some ts /\
     (fun _ => Some {| dt_micros := 60; dt_aware := false |}) ts = Some time /\
     entry_time {| trade_active := true; entry_price := 100; tl_leverage := 3;
                   entry_time := Some {| dt_micros := 0; dt_aware := false |};
                   last_processed_id := Some 1 |} = Some et /\
     dt_sub time et = Some elapsed /\
     ONE_HOUR <= elapsed /\ c_close (hour_candle 2 101) = Some close /\
     insert_trade_signal stuck_table
       (format_trade_signal "close" ts SYMBOL "long" close None) = Some t1 /\
     snd (process_candle (fun _ => Some {| dt_micros := 60; dt_aware := false |})
            (table_engine (calm_gateway (btc_at 0) [])) (hour_candle 2 101)
            {| trade_active := true; entry_price := 100; tl_leverage := 3;
               entry_time := Some {| dt_micros := 0; dt_aware := false |};
               last_processed_id := Some 1 |} stuck_table) =
     snd (table_engine (calm_gateway (btc_at 0) [])
            (mark_open_trade_executed t1 SYMBOL))).
Proof.
  split; [reflexivity|].
  exact (active_trade_waits_an_hour
           (fun _ => Some {| dt_micros := 60; dt_aware := false |})
           (table_engine (calm_gateway (btc_at 0) [])) (hour_candle 2 101)
           {| trade_active := true; entry_price := 100; tl_leverage := 3;
              entry_time := Some {| dt_micros := 0; dt_aware := false |};
              last_processed_id := Some 1 |} stuck_table eq_refl).
Defined.

(** X24: with positive candle ids (as [AUTOINCREMENT] gives them), the loop
    hands candles to [process_candle] in strictly increasing id order, so no
    candle is processed twice, and all of them above the last processed
    id it starts from. *)
Theorem loop_run_increasing fromisoformat engine snaps tl t :
  (forall candles c, In candles snaps -> In c candles -> 0 < c_id c) ->
  StronglySorted Z.lt (fst (loop_run fromisoformat engine snaps tl t)) /\
  (forall n, last_processed_id tl = Some n -> n <> 0 ->
   Forall (fun x => n < x) (fst (loop_run fromisoformat engine snaps tl t))).
Proof.
  revert tl t. induction snaps as [|candles rest IH]; intros tl t Hpos.
  - simpl. split; [constructor | intros; constructor].
  - assert (Hrest : forall cs c, In cs rest -> In c cs -> 0 < c_id c)
      by (intros cs c Hcs; apply Hpos; right; exact Hcs).
    pose proof (latest_candle_least candles (last_processed_id tl)) as Hs.
    cbv zeta in Hs.
    cbn [loop_run]. unfold loop_step.
    destruct (get_latest_hourly_candle candles (last_processed_id tl)) as [c|].
    + destruct Hs as (Hin & Hab & _).
      assert (Hc : 0 < c_id c) by (apply (Hpos candles); [left|]; auto).
      destruct (process_candle fromisoformat engine c tl t) as [tl1 t1].
      destruct (IH {| trade_active := trade_active tl1;
                      entry_price := entry_price tl1;
                      tl_leverage := tl_leverage tl1;
                      entry_time := entry_time tl1;
                      last_processed_id := Some (c_id c) |} t1 Hrest)
        as [Hsort Habove].
      specialize (Habove (c_id c) eq_refl ltac:(lia)).
      destruct (loop_run fromisoformat engine rest _ t1) as [ids st].
      cbn [fst app] in *. split.
      * constructor; assumption.
      * intros n Hn Hn0. rewrite Hn in Hab.
        apply Z.eqb_neq in Hn0. rewrite Hn0 in Hab. simpl in Hab.
        apply Z.ltb_lt in Hab. constructor; [exact Hab|].
        eapply Forall_impl; [|exact Habove]. simpl. intros x Hx. lia.
    + destruct (IH tl t Hrest) as [Hsort Habove].
      destruct (loop_run fromisoformat engine rest tl t) as [ids st].
      exact (conj Hsort Habove).
Qed.

Lemma loop_run_increasing_witness :
  (forall candles c, In candles [[hour_candle 1 101]; [hour_candle 1 101; hour_candle 2 100]] ->
     In c candles -> 0 < c_id c) /\
  StronglySorted Z.lt
    (fst (loop_run (fun _ => Some {| dt_micros := 0; dt_aware := false |})
            (table_engine (calm_gateway (btc_at 0) []))
            [[hour_candle 1 101]; [hour_candle 1 101; hour_candle 2 100]]
            initial_logic {| t_seq := 0; t_rows := [] |})) /\
  (forall n, last_processed_id initial_logic = Some n -> n <> 0 ->
   Forall (fun x => n < x)
     (fst (loop_run (fun _ => Some {| dt_micros := 0; dt_aware := false |})
             (table_engine (calm_gateway (btc_at 0) []))
             [[hour_candle 1 101]; [hour_candle 1 101; hour_candle 2 100]]
             initial_logic {| t_seq := 0; t_rows := [] |}))).
Proof.
  assert (H : forall candles c,
            In candles [[hour_candle 1 101]; [hour_candle 1 101; hour_candle 2 100]] ->
            In c candles -> 0 < c_id c).
  { intros candles c [<-|[<-|[]]] Hc; simpl in Hc;
      repeat destruct Hc as [<-|Hc]; try destruct Hc; reflexivity. }
  split; [exact H|].
  exact (loop_run_increasing (fun _ => Some {| dt_micros := 0; dt_aware := false |})
           (table_engine (calm_gateway (btc_at 0) []))
           [[hour_candle 1 101]; [hour_candle 1 101; hour_candle 2 100]]
           initial_logic {| t_seq := 0; t_rows := [] |} H).
Defined.
